(** * chat.py: the prompt/response pipeline of the chat front-end

    A shallow embedding of [src/gemini-1/chat.py]: the response formatter
    ([format_response], a chain of [re.sub] rewrites), the context builder
    ([build_conversation_context]) and the two POST /chat handlers
    ([chat], [handle_file_upload]) with their collaborators made explicit.

    Python strings are sequences of Unicode code points; they are modelled
    as lists of code points ([N]).  The regular expressions are kept as
    syntax trees and run by a backtracking matcher with the priorities of
    Python's [re] engine (greedy repetition, leftmost match, no overlap). *)

From Stdlib Require Import String Ascii NArith ZArith Arith Bool Lia List.
Import ListNotations.

Set Implicit Arguments.

(** ** Strings *)

Definition char := N.
Bind Scope N_scope with char.
Definition str := list char.

(** A string literal of the source, as code points. *)
Definition lit (s : string) : str := map N_of_ascii (list_ascii_of_string s).

Definition chr (a : ascii) : char := N_of_ascii a.

Definition NL : char := 10%N.
Definition SP : char := 32%N.

Definition in_range (lo hi c : char) : bool := ((lo <=? c) && (c <=? hi))%N.

Definition is_char (a : char) (c : char) : bool := (c =? a)%N.

(** [Py_UNICODE_ISSPACE]: the characters [str.strip()] removes and the
    class [\s] of a [str] pattern. *)
Definition is_space (c : char) : bool :=
  in_range 9 13 c || in_range 28 32 c || is_char 133 c || is_char 160 c
  || is_char 5760 c || in_range 8192 8202 c || is_char 8232 c
  || is_char 8233 c || is_char 8239 c || is_char 8287 c || is_char 12288 c.

(** [[A-Z]] *)
Definition is_upper (c : char) : bool := in_range 65 90 c.

Definition is_nl (c : char) : bool := is_char NL c.

Fixpoint lstrip (s : str) : str :=
  match s with
  | c :: s' => if is_space c then lstrip s' else s
  | [] => []
  end.

Definition rstrip (s : str) : str := rev (lstrip (rev s)).

(** [text.strip()] *)
Definition strip (s : str) : str := rstrip (lstrip s).

(** ** Regular expressions

    The ten patterns of [format_response] are built from single-character
    classes, greedy repetitions of a class with a lower bound ([+] is
    [Rep p 1], [*] is [Rep p 0], [{4,}] is [Rep p 4]), concatenation and
    numbered groups. *)

Inductive regex : Type :=
| Cls (p : char -> bool)
| Rep (p : char -> bool) (lo : nat)
| Cat (r1 r2 : regex)
| Grp (i : nat) (r : regex).

Declare Scope regex_scope.
Delimit Scope regex_scope with re.
Bind Scope regex_scope with regex.
Infix "@@" := Cat (at level 60, right associativity) : regex_scope.

(** The text captured by each group. *)
Definition groups := nat -> str.

Definition no_groups : groups := fun _ => [].

Definition set_group (i : nat) (w : str) (g : groups) : groups :=
  fun j => if Nat.eqb j i then w else g j.

Section Matcher.
Variable R : Type.

(** Greedy repetition: take one more character when possible and give
    it back when the rest of the pattern fails. *)
Fixpoint rep (p : char -> bool) (lo : nat) (s : str)
         (k : str -> option R) : option R :=
  let stop := if Nat.eqb lo 0 then k s else None in
  match s with
  | c :: s' =>
      if p c then
        match rep p (pred lo) s' k with
        | Some x => Some x
        | None => stop
        end
      else stop
  | [] => stop
  end.

(** [run r s g k] matches [r] at the head of [s]; [k] receives the
    remaining text and the groups, and its failure makes the matcher
    backtrack. *)
Fixpoint run (r : regex) (s : str) (g : groups)
         (k : str -> groups -> option R) : option R :=
  match r with
  | Cls p =>
      match s with
      | c :: s' => if p c then k s' g else None
      | [] => None
      end
  | Rep p lo => rep p lo s (fun s' => k s' g)
  | Cat r1 r2 => run r1 s g (fun s' g' => run r2 s' g' k)
  | Grp i r1 =>
      run r1 s g
          (fun s' g' =>
             k s' (set_group i (firstn (length s - length s') s) g'))
  end.
End Matcher.

(** The match of [r] starting at the head of [s], if any: the number of
    characters it consumes and its groups. *)
Definition match_at (r : regex) (s : str) : option (nat * groups) :=
  run r s no_groups (fun s' g => Some (length s - length s', g)).

(** [re.search(r, s) is not None] *)
Fixpoint re_search (r : regex) (s : str) : bool :=
  match match_at r s with
  | Some _ => true
  | None =>
      match s with
      | _ :: s' => re_search r s'
      | [] => false
      end
  end.

(** Replacement templates: literal text and group references. *)
Inductive piece : Type :=
| Txt (w : str)
| Ref (i : nat).

Definition template := list piece.

Definition expand (t : template) (g : groups) : str :=
  flat_map (fun x => match x with Txt w => w | Ref i => g i end) t.

(** [sub_from r t s skip]: the scan of [re.sub] over [s], the first [skip]
    characters of which belong to the match just replaced.  Every
    pattern of this program consumes at least one character, so the
    treatment of empty matches is immaterial; an empty match is replaced
    and the scan moves on by one character. *)
Fixpoint sub_from (r : regex) (t : template) (s : str) (skip : nat) : str :=
  match s with
  | [] => []
  | c :: s' =>
      match skip with
      | S n => sub_from r t s' n
      | O =>
          match match_at r s with
          | Some (S n, g) => expand t g ++ sub_from r t s' n
          | Some (O, g) => expand t g ++ c :: sub_from r t s' 0
          | None => c :: sub_from r t s' 0
          end
      end
  end.

(** [re.sub(r, t, s)] *)
Definition re_sub (r : regex) (t : template) (s : str) : str :=
  sub_from r t s 0.

(** ** The response formatter *)

Definition fallback : str := lit "I'm not sure how to answer that.".

Definition is_star : char -> bool := is_char (chr "*").

Definition is_marker (c : char) : bool :=
  is_char (chr "_") c || is_char (chr "~") c || is_char (chr "`") c.

Definition is_colon : char -> bool := is_char (chr ":").

(** [[A-Z\s]] *)
Definition is_caps_or_space (c : char) : bool := is_upper c || is_space c.

Definition TAB : char := 9%N.

Definition is_blank (c : char) : bool := is_char SP c || is_char TAB c.

Definition is_punct (c : char) : bool :=
  is_char (chr ".") c || is_char (chr "!") c || is_char (chr "?") c.

Section Formatter.

(** The class [\d] of a [str] pattern is the decimal digits of the
    Unicode database of the running interpreter; it is a parameter. *)
Variable is_decimal : char -> bool.

(** [\*+] *)
Definition re_stars : regex := Rep is_star 1.
(** [[_~`]+] *)
Definition re_markers : regex := Rep is_marker 1.
(** [\s+] *)
Definition re_spaces : regex := Rep is_space 1.
(** [\n([A-Z][A-Z\s:]+:)\n] *)
Definition re_heading_line : regex :=
  (Cls is_nl
   @@ Grp 1 (Cls is_upper
             @@ Rep (fun c => is_upper c || is_space c || is_colon c) 1
             @@ Cls is_colon)
   @@ Cls is_nl)%re.
(** [[A-Z][A-Z\s]+:] *)
Definition re_heading : regex :=
  (Cls is_upper @@ Rep is_caps_or_space 1 @@ Cls is_colon)%re.
(** [([A-Z][A-Z\s]+:)([^\n])] *)
Definition re_heading_text : regex :=
  (Grp 1 re_heading @@ Grp 2 (Cls (fun c => negb (is_nl c))))%re.
(** [\n(\d+\.)] *)
Definition re_numbered : regex :=
  (Cls is_nl @@ Grp 1 (Rep is_decimal 1 @@ Cls (is_char (chr "."))))%re.
(** [\n(-\s)] *)
Definition re_bullet : regex :=
  (Cls is_nl @@ Grp 1 (Cls (is_char (chr "-")) @@ Cls is_space))%re.
(** [([.!?])\s*\n([A-Z])] *)
Definition re_sentence : regex :=
  (Grp 1 (Cls is_punct) @@ Rep is_space 0 @@ Cls is_nl
   @@ Grp 2 (Cls is_upper))%re.
(** [\n{4,}] *)
Definition re_newlines : regex := Rep is_nl 4.
(** [[ \t]+] *)
Definition re_blanks : regex := Rep is_blank 1.

(** Lines 63-64: the markers are removed. *)
Definition strip_markers (text : str) : str :=
  re_sub re_markers [] (re_sub re_stars [] text).

(** Line 65: every run of whitespace becomes one space. *)
Definition collapse_spaces (text : str) : str :=
  re_sub re_spaces [Txt [SP]] text.

(** Line 73. *)
Definition collapse_newlines (text : str) : str :=
  re_sub re_newlines [Txt [NL; NL; NL]] text.

(** Lines 68-74, in their order. *)
Definition restructure (text : str) : str :=
  let text := re_sub re_heading_line [Txt [NL; NL]; Ref 1; Txt [NL]] text in
  let text := re_sub re_heading_text [Ref 1; Txt [NL]; Ref 2] text in
  let text := re_sub re_numbered [Txt [NL; NL]; Ref 1] text in
  let text := re_sub re_bullet [Txt [NL; NL]; Ref 1] text in
  let text := re_sub re_sentence [Ref 1; Txt [NL; NL]; Ref 2] text in
  let text := collapse_newlines text in
  let text := re_sub re_blanks [Txt [SP]] text in
  text.

(** Lines 68-72: the text that line 73 receives. *)
Definition paragraphs (text : str) : str :=
  let text := re_sub re_heading_line [Txt [NL; NL]; Ref 1; Txt [NL]] text in
  let text := re_sub re_heading_text [Ref 1; Txt [NL]; Ref 2] text in
  let text := re_sub re_numbered [Txt [NL; NL]; Ref 1] text in
  let text := re_sub re_bullet [Txt [NL; NL]; Ref 1] text in
  let text := re_sub re_sentence [Ref 1; Txt [NL; NL]; Ref 2] text in
  text.

(** Lines 60-72: the text that line 73 receives when [format_response]
    is given [text]. *)
Definition before_newlines (text : str) : str :=
  paragraphs (collapse_spaces (strip_markers (strip text))).

(** [format_response(text)], lines 55-76; [None] is Python's [None]. *)
Definition format_response (text : option str) : str :=
  match text with
  | None | Some [] => fallback
  | Some text =>
      let text := strip text in
      let text := strip_markers text in
      let text := collapse_spaces text in
      let text := restructure text in
      strip text
  end.

End Formatter.

(** The ASCII digits: the part of [\d] every interpreter agrees on. *)
Definition ascii_decimal (c : char) : bool := in_range 48 57 c.

(** ** Python values, exceptions and results *)

(** The values [json.loads] and [request.get_json] produce.  Of a float
    only its truth value is observed here. *)
#[warnings="-register-all"]
Inductive pyval : Type :=
| PNone
| PBool (b : bool)
| PInt (n : Z)
| PFloat (nonzero : bool)
| PStr (s : str)
| PList (l : list pyval)
| PDict (d : list (str * pyval)).

(** [bool(v)] *)
Definition truthy (v : pyval) : bool :=
  match v with
  | PNone => false
  | PBool b => b
  | PInt n => negb (Z.eqb n 0)
  | PFloat nonzero => nonzero
  | PStr [] => false
  | PStr (_ :: _) => true
  | PList [] => false
  | PList (_ :: _) => true
  | PDict [] => false
  | PDict (_ :: _) => true
  end.

Fixpoint str_eqb (a b : str) : bool :=
  match a, b with
  | [], [] => true
  | x :: a', y :: b' => N.eqb x y && str_eqb a' b'
  | _, _ => false
  end.

Definition dict := list (str * pyval).

Fixpoint dict_get (d : dict) (k : str) : option pyval :=
  match d with
  | [] => None
  | (k', v) :: d' => if str_eqb k' k then Some v else dict_get d' k
  end.

(** [d.get(k, default)] *)
Definition get (d : dict) (k : str) (default : pyval) : pyval :=
  match dict_get d k with
  | Some v => v
  | None => default
  end.

(** An exception is observed through its text [str(e)] and through
    [except UnicodeDecodeError]. *)
Inductive exn : Type :=
| UnicodeDecodeError (msg : str)
| Exception (msg : str).

Definition exn_str (e : exn) : str :=
  match e with
  | UnicodeDecodeError msg => msg
  | Exception msg => msg
  end.

Inductive outcome (A : Type) : Type :=
| Ok (a : A)
| Raise (e : exn).

Arguments Ok {A} a.
Arguments Raise {A} e.

(** [s.startswith(prefix)], [s.endswith(suffix)], [s.endswith(tuple)] *)
Fixpoint startswith (prefix s : str) : bool :=
  match prefix, s with
  | [], _ => true
  | p :: prefix', c :: s' => N.eqb c p && startswith prefix' s'
  | _ :: _, [] => false
  end.

Definition endswith (suffix s : str) : bool :=
  startswith (rev suffix) (rev s).

Definition endswith_any (suffixes : list str) (s : str) : bool :=
  existsb (fun suffix => endswith suffix s) suffixes.

(** ** The context builder *)

(** [l[-10:]] *)
Definition last10 (A : Type) (l : list A) : list A :=
  skipn (length l - 10) l.

Definition context_header : str :=
  [NL; NL] ++ lit "CONVERSATION CONTEXT:" ++ [NL].

Section Context.

(** [str(v)] for a value that is not a string, and the exception the
    interpreter raises when a value of the wrong type is sliced or asked
    for [.get]: both belong to the interpreter. *)
Variable py_str : pyval -> str.
Variable bad_type : pyval -> exn.

(** [f"{v}"] *)
Definition fmt (v : pyval) : str :=
  match v with
  | PStr s => s
  | _ => py_str v
  end.

(** [msg.get('role') == 'user'] *)
Definition is_user (role : pyval) : bool :=
  match role with
  | PStr s => str_eqb s (lit "user")
  | _ => false
  end.

(** The loop of lines 84-86 over the messages left to visit. *)
Fixpoint context_loop (msgs : list pyval) (context : str) : outcome str :=
  match msgs with
  | [] => Ok context
  | PDict msg :: msgs' =>
      let role :=
        if is_user (get msg (lit "role") PNone)
        then lit "User" else lit "Assistant" in
      context_loop msgs'
        (context ++ role ++ lit ": "
           ++ fmt (get msg (lit "content") (PStr [])) ++ [NL])
  | v :: _ => Raise (bad_type v)
  end.

(** [build_conversation_context(conversation_history)].  A true value
    that is not a list cannot be sliced, or yields elements without
    [.get]. *)
Definition build_conversation_context (conversation_history : pyval)
  : outcome str :=
  if negb (truthy conversation_history) then Ok []
  else
    match conversation_history with
    | PList l =>
        match context_loop (last10 l) context_header with
        | Ok context => Ok (context ++ [NL])
        | Raise e => Raise e
        end
    | v => Raise (bad_type v)
    end.

End Context.

(** The context block as the specification words it: the header, the
    last ten turns each rendered as [<Role>: <content>], joined with
    newlines, and a trailing newline. *)
Section SpecContext.
Variable py_str : pyval -> str.

Definition spec_role (msg : dict) : str :=
  match dict_get msg (lit "role") with
  | Some (PStr s) =>
      if str_eqb s (lit "user") then lit "User" else lit "Assistant"
  | _ => lit "Assistant"
  end.

Definition spec_content (msg : dict) : str :=
  match dict_get msg (lit "content") with
  | Some v => fmt py_str v
  | None => []
  end.

Definition spec_turn (msg : dict) : str :=
  spec_role msg ++ lit ": " ++ spec_content msg.

Fixpoint join (sep : str) (parts : list str) : str :=
  match parts with
  | [] => []
  | [p] => p
  | p :: parts' => p ++ sep ++ join sep parts'
  end.

Definition spec_context (history : list dict) : str :=
  context_header ++ join [NL] (map spec_turn (last10 history)) ++ [NL].
End SpecContext.

(** ** Requests, replies and the world *)

Definition bytes := list Byte.byte.

(** [request.files['file']]: a werkzeug [FileStorage]. *)
Record upload : Type := {
  filename : str;
  mimetype : str;
  data : bytes
}.

Record request : Type := {
  file : option upload;          (* ['file' in request.files] *)
  form : list (str * str);       (* [request.form] *)
  json : outcome pyval           (* [request.get_json()] *)
}.

Fixpoint form_get (f : list (str * str)) (k : str) (default : str) : str :=
  match f with
  | [] => default
  | (k', v) :: f' => if str_eqb k' k then v else form_get f' k default
  end.

(** [jsonify(...)] of a flat object of strings, with its status. *)
Record reply : Type := {
  status : nat;
  body : list (str * str)
}.

(** What is sent to [model.generate_content]: the prompt, and for an
    image its mime type and base64 data. *)
Record payload : Type := {
  prompt : str;
  attachment : option (str * str)
}.

(** The uploads directory and the calls made to the model. *)
Record world : Type := {
  disk : list (str * bytes);
  asked : list payload
}.

(** Handlers run in the world and may raise. *)
Definition M (A : Type) : Type := world -> outcome A * world.

Definition ret (A : Type) (a : A) : M A := fun w => (Ok a, w).

Definition raise (A : Type) (e : exn) : M A := fun w => (Raise e, w).

Arguments raise {A} e.

Definition bind (A B : Type) (m : M A) (k : A -> M B) : M B :=
  fun w =>
    match m w with
    | (Ok a, w') => k a w'
    | (Raise e, w') => (Raise e, w')
    end.

(** [try: m except Exception as e: h e] *)
Definition catch (A : Type) (m : M A) (h : exn -> M A) : M A :=
  fun w =>
    match m w with
    | (Ok a, w') => (Ok a, w')
    | (Raise e, w') => h e w'
    end.

Notation "x <- m ;; k" := (bind m (fun x => k))
  (at level 61, m at next level, right associativity).

Definition nonempty (s : str) : bool :=
  match s with
  | [] => false
  | _ :: _ => true
  end.

Definition SYSTEM_INSTRUCTION : str :=
  lit "You are a helpful, knowledgeable, and professional AI assistant. "
  ++ lit "Provide clear, accurate, and well-structured responses. "
  ++ lit "Use proper formatting with headings, lists, and examples "
  ++ lit "when helpful. "
  ++ lit "Never use asterisks (*) for formatting. "
  ++ lit "Use dashes (-) for bullet points. "
  ++ lit "Be comprehensive but concise, "
  ++ lit "and always aim for clarity and helpfulness.".

Definition IMAGE_REQUEST : str :=
  lit "Please analyze this image and provide:" ++ [NL; NL]
  ++ lit "1. A brief overview of what you see" ++ [NL]
  ++ lit "2. Key details about the main subjects or objects" ++ [NL]
  ++ lit "3. Information about colors, composition, and setting" ++ [NL]
  ++ lit "4. Any text or important details you notice" ++ [NL]
  ++ lit "5. Notable features, patterns, or technical aspects" ++ [NL; NL]
  ++ lit "Please organize your response clearly.".

Definition FILE_REQUEST : str :=
  lit "Please help me understand this file by providing:" ++ [NL; NL]
  ++ lit "1. What type of file this is and its main purpose" ++ [NL]
  ++ lit "2. Key components, functions, or sections" ++ [NL]
  ++ lit "3. How it's structured and organized" ++ [NL]
  ++ lit "4. Any notable features or important aspects" ++ [NL]
  ++ lit "5. If it's code, any observations about quality or improvements"
  ++ [NL; NL]
  ++ lit "Please explain everything clearly.".

Definition UPLOAD_FOLDER : str := lit "static/uploads".

Definition TEXT_EXTENSIONS : list str :=
  [lit ".txt"; lit ".py"; lit ".js"; lit ".html"; lit ".css"; lit ".json";
   lit ".xml"; lit ".csv"].

Definition unsupported_message (mime : str) : str :=
  lit "Sorry, I don't support files of type '" ++ mime
  ++ lit "'. I can analyze images and text files.".

Section Server.

(** The collaborators: the interpreter ([\d], [str()], type errors),
    the model handle ([None] when it was not initialized;
    [generate p] is [model.generate_content(p).text]), [json.loads], the
    token [secrets.token_hex(8)] drew for this request, the file system
    ([writable path]: [file.save(path)] succeeds), UTF-8 decoding of a
    file opened in text mode and [base64.b64encode]. *)
Variable is_decimal : char -> bool.
Variable py_str : pyval -> str.
Variable bad_type : pyval -> exn.
Variable model : option (payload -> outcome str).
Variable json_loads : str -> outcome pyval.
Variable token : str.
Variable writable : str -> bool.
Variable decode_utf8 : bytes -> outcome str.
Variable b64encode : bytes -> str.

(** [model.generate_content(p)] and the reading of [response.text]. *)
Definition generate_content (generate : payload -> outcome str)
           (p : payload) : M str :=
  fun w =>
    let w' := {| disk := disk w; asked := asked w ++ [p] |} in
    match generate p with
    | Ok text => (Ok text, w')
    | Raise e => (Raise e, w')
    end.

(** The disk maps a path to the content stored under it.  Opening a
    path for writing truncates it: the file stored under that path, if
    any, is replaced, and every other file is left as it is. *)
Fixpoint remove_file (path : str) (files : list (str * bytes))
  : list (str * bytes) :=
  match files with
  | [] => []
  | (p, content) :: files' =>
      if str_eqb p path then remove_file path files'
      else (p, content) :: remove_file path files'
  end.

Definition write_file (path : str) (content : bytes)
           (files : list (str * bytes)) : list (str * bytes) :=
  (path, content) :: remove_file path files.

(** [file.save(file_path)] *)
Definition save (path : str) (content : bytes) : M unit :=
  fun w =>
    if writable path
    then (Ok tt, {| disk := write_file path content (disk w);
                    asked := asked w |})
    else (Raise (Exception (lit "cannot write the file")), w).

(** [open(file_path, 'rb').read()] *)
Fixpoint lookup (files : list (str * bytes)) (path : str) : option bytes :=
  match files with
  | [] => None
  | (p, content) :: files' =>
      if str_eqb p path then Some content else lookup files' path
  end.

Definition read_bytes (path : str) : M bytes :=
  fun w =>
    match lookup (disk w) path with
    | Some content => (Ok content, w)
    | None => (Raise (Exception (lit "No such file or directory")), w)
    end.

(** [open(file_path, 'r', encoding='utf-8').read()] *)
Definition read_text (path : str) : M str :=
  content <- read_bytes path ;;
  match decode_utf8 content with
  | Ok text => ret text
  | Raise e => raise e
  end.

Definition process_image_file (file_path mime_type message context : str)
  : M str :=
  catch
    (image_data <- read_bytes file_path ;;
     let image_b64 := b64encode image_data in
     let prompt_text :=
       SYSTEM_INSTRUCTION ++ context ++ [NL; NL]
       ++ (if nonempty message then message else IMAGE_REQUEST) in
     let content :=
       {| prompt := prompt_text;
          attachment := Some (mime_type, image_b64) |} in
     match model with
     | Some generate =>
         text <- generate_content generate content ;;
         ret (if nonempty text
              then format_response is_decimal (Some text)
              else lit "I couldn't analyze this image.")
     | None => ret (lit "AI model is not available.")
     end)
    (fun e =>
       ret (lit "Sorry, I couldn't process this image. Error: "
            ++ exn_str e)).

Definition process_text_file (file_path name message context : str)
  : M str :=
  catch
    (file_content <- read_text file_path ;;
     let prompt_text :=
       SYSTEM_INSTRUCTION ++ context ++ [NL; NL]
       ++ lit "I've uploaded a file called '" ++ name
       ++ lit "'. Could you analyze it?" ++ [NL; NL]
       ++ lit "Here's the content:" ++ [NL; NL] ++ lit "```" ++ [NL]
       ++ file_content ++ [NL] ++ lit "```" ++ [NL; NL]
       ++ (if nonempty message then message else FILE_REQUEST) in
     match model with
     | Some generate =>
         text <- generate_content generate
                   {| prompt := prompt_text; attachment := None |} ;;
         ret (if nonempty text
              then format_response is_decimal (Some text)
              else lit "I couldn't analyze this file.")
     | None => ret (lit "AI model is not available.")
     end)
    (fun e =>
       match e with
       | UnicodeDecodeError _ =>
           ret (lit "Sorry, I couldn't read this file. "
                ++ lit "It might be in a format I don't support.")
       | Exception _ =>
           ret (lit "Sorry, I couldn't process this file. Error: "
                ++ exn_str e)
       end).

(** Lines 179-184: the answer for the saved file. *)
Definition analyse (file_path : str) (f : upload) (message context : str)
  : M str :=
  if startswith (lit "image/") (mimetype f) then
    process_image_file file_path (mimetype f) message context
  else if startswith (lit "text/") (mimetype f)
          || endswith_any TEXT_EXTENSIONS (filename f) then
    process_text_file file_path (filename f) message context
  else
    ret (unsupported_message (mimetype f)).

(** [handle_file_upload()].  [request.files['file']] raises when the
    request has no such part; [chat] only calls the handler when it has. *)
Definition handle_file_upload (req : request) : M reply :=
  match file req with
  | None => raise (Exception (lit "400 Bad Request: KeyError: 'file'"))
  | Some f =>
      let message := form_get (form req) (lit "message") [] in
      let history_json :=
        form_get (form req) (lit "conversation_history") (lit "[]") in
      let conversation_history :=
        match json_loads history_json with
        | Ok v => v
        | Raise _ => PList []
        end in
      if negb (nonempty (filename f)) then
        ret {| status := 400;
               body := [(lit "error", lit "No file selected")] |}
      else
        let name := token ++ lit "_" ++ filename f in
        let file_path := UPLOAD_FOLDER ++ lit "/" ++ name in
        saved <- catch (_ <- save file_path (data f) ;; ret true)
                       (fun _ => ret false) ;;
        if negb saved then
          ret {| status := 500;
                 body := [(lit "error", lit "Failed to save file")] |}
        else
          match build_conversation_context py_str bad_type
                  conversation_history with
          | Raise e => raise e
          | Ok context =>
              answer <- analyse file_path f message context ;;
              ret {| status := 200;
                     body := [(lit "response", answer);
                              (lit "file_url",
                               lit "/static/uploads/" ++ name);
                              (lit "file_name", filename f);
                              (lit "file_type", mimetype f)] |}
          end
  end.

(** The body of [chat()] inside its [try]. *)
Definition chat_body (req : request) : M reply :=
  match file req with
  | Some _ => handle_file_upload req
  | None =>
      match json req with
      | Raise e => raise e
      | Ok data =>
          if negb (truthy data) then
            ret {| status := 400;
                   body := [(lit "error", lit "No message provided")] |}
          else
            match data with
            | PDict d =>
                if negb (truthy (get d (lit "message") PNone)) then
                  ret {| status := 400;
                         body := [(lit "error", lit "No message provided")] |}
                else
                  let message := get d (lit "message") (PStr []) in
                  let conversation_history :=
                    get d (lit "conversation_history") (PList []) in
                  match build_conversation_context py_str bad_type
                          conversation_history with
                  | Raise e => raise e
                  | Ok context =>
                      match message with
                      | PStr message =>
                          let prompt_text :=
                            SYSTEM_INSTRUCTION ++ context ++ message
                            ++ [NL; NL] ++ lit "Assistant:" in
                          answer <-
                            match model with
                            | Some generate =>
                                text <- generate_content generate
                                          {| prompt := prompt_text;
                                             attachment := None |} ;;
                                ret (if nonempty text
                                     then format_response is_decimal
                                            (Some text)
                                     else
                                       lit "I'm not sure how to respond to that.")
                            | None => ret (lit "AI model is not available.")
                            end ;;
                          ret {| status := 200;
                                 body := [(lit "response", answer)] |}
                      | v => raise (bad_type v)
                      end
                  end
            | v => raise (bad_type v)
            end
      end
  end.

(** [chat()]: whatever is raised becomes a reply with status 500. *)
Definition chat (req : request) (w : world) : reply * world :=
  match chat_body req w with
  | (Ok r, w') => (r, w')
  | (Raise e, w') =>
      ({| status := 500;
          body := [(lit "error", lit "An error occurred: " ++ exn_str e)] |},
       w')
  end.

End Server.

(** ** Start-up *)

(** The test prompt of line 49. *)
Definition HELLO : payload := {| prompt := lit "Hello"; attachment := None |}.

(** [initialize_model()], lines 35-53: [make] is the call
    [genai.GenerativeModel(...)], [model] the global handle before the
    call.  The handle is assigned before the test call is made; the
    result is the boolean, the handle afterwards and the world. *)
Definition initialize_model (make : outcome (payload -> outcome str))
           (model : option (payload -> outcome str)) (w : world)
  : bool * option (payload -> outcome str) * world :=
  match make with
  | Raise _ => (false, model, w)
  | Ok generate =>
      match generate_content generate HELLO w with
      | (Ok text, w') => (nonempty text, Some generate, w')
      | (Raise _, w') => (false, Some generate, w')
      end
  end.

(** ** Vocabulary of the statements *)

Definition has_prefix (p s : str) : Prop := exists t, s = p ++ t.

Definition has_suffix (e s : str) : Prop := exists t, s = t ++ e.

(** [calls_only model w w' calls]: between [w] and [w'] the disk is
    untouched and the model has received [calls]: at most one payload,
    none when there is no model, each beginning with the system
    instruction. *)
Definition calls_only (model : option (payload -> outcome str))
           (w w' : world) (calls : list payload) : Prop :=
  disk w' = disk w
  /\ asked w' = asked w ++ calls
  /\ length calls <= 1
  /\ (model = None -> calls = [])
  /\ Forall (fun p => has_prefix SYSTEM_INSTRUCTION (prompt p)) calls.

(** [asks model w w']: from [w] to [w'] the model received at most one
    payload, none when there is no model, and one that begins with the
    system instruction. *)
Definition asks (model : option (payload -> outcome str))
           (w w' : world) : Prop :=
  exists calls,
    asked w' = asked w ++ calls
    /\ length calls <= 1
    /\ (model = None -> calls = [])
    /\ Forall (fun p => has_prefix SYSTEM_INSTRUCTION (prompt p)) calls.

(** The path under which an upload is stored (lines 167-168). *)
Definition upload_path (token : str) (f : upload) : str :=
  UPLOAD_FOLDER ++ lit "/" ++ token ++ lit "_" ++ filename f.

(** The disk a request leaves: an upload with a name, whose save
    succeeds, is written under its path; nothing else is touched. *)
Definition disk_after (token : str) (writable : str -> bool)
           (req : request) (files : list (str * bytes))
  : list (str * bytes) :=
  match file req with
  | Some f =>
      if nonempty (filename f) && writable (upload_path token f)
      then write_file (upload_path token f) (data f) files
      else files
  | None => files
  end.

(** The two shapes of a reply: status 200 with a [response] field first,
    or status 400 or 500 with an [error] field alone. *)
Definition reply_ok (r : reply) : Prop :=
  (status r = 200
   /\ exists answer rest, body r = (lit "response", answer) :: rest)
  \/ ((status r = 400 \/ status r = 500)
      /\ exists msg, body r = [(lit "error", msg)]).

(** The request without its [conversation_history] form field. *)
Definition without_history (req : request) : request :=
  {| file := file req;
     form :=
       filter (fun kv => negb (str_eqb (fst kv) (lit "conversation_history")))
              (form req);
     json := json req |}.

(** Stand-ins for the collaborators, to run the handlers on examples: an
    interpreter, a model that answers [Hi there!], a [json.loads] that
    reads [[]] and rejects anything else, a disk that accepts every
    write. *)
Definition py_str_stub (v : pyval) : str := lit "<value>".

Definition bad_type_stub (v : pyval) : exn := Exception (lit "TypeError").

Definition model_stub : option (payload -> outcome str) :=
  Some (fun _ => Ok (lit "Hi there!")).

Definition json_loads_stub (s : str) : outcome pyval :=
  if str_eqb s (lit "[]") then Ok (PList [])
  else Raise (Exception (lit "JSONDecodeError")).

(** A [json.loads] that also reads the number [7]. *)
Definition json_loads_seven (s : str) : outcome pyval :=
  if str_eqb s (lit "7") then Ok (PInt 7) else json_loads_stub s.

Definition decode_stub (b : bytes) : outcome str := Ok (lit "a,b").

Definition b64_stub (b : bytes) : str := lit "QUJD".

Definition chat_stub : request -> world -> reply * world :=
  chat ascii_decimal py_str_stub bad_type_stub model_stub json_loads_stub
       (lit "0123456789abcdef") (fun _ => true) decode_stub b64_stub.

Definition empty_world : world := {| disk := []; asked := [] |}.

(** A disk that already holds a file under the path of the next upload,
    and another file. *)
Definition stored_world : world :=
  {| disk := [(lit "static/uploads/0123456789abcdef_photo.png",
               [Byte.x41; Byte.x42]);
              (lit "static/uploads/ffffffffffffffff_notes.txt", [Byte.x43])];
     asked := [] |}.

(** Four uploads and the requests that carry them. *)
Definition csv_upload : upload :=
  {| filename := lit "data.csv";
     mimetype := lit "application/octet-stream";
     data := [] |}.

Definition pdf_upload : upload :=
  {| filename := lit "paper.pdf";
     mimetype := lit "application/pdf";
     data := [] |}.

Definition png_upload : upload :=
  {| filename := lit "photo.png"; mimetype := lit "image/png"; data := [] |}.

(** The file part a browser sends when no file was chosen. *)
Definition nameless_upload : upload :=
  {| filename := []; mimetype := lit "application/octet-stream"; data := [] |}.

Definition upload_request (f : upload) (history_json : str) : request :=
  {| file := Some f;
     form := [(lit "message", lit "What is this?");
              (lit "conversation_history", history_json)];
     json := Raise (Exception (lit "415 Unsupported Media Type")) |}.

Definition json_request (data : pyval) : request :=
  {| file := None; form := []; json := Ok data |}.

(** Twelve turns of a user, saying [a] to [l]. *)
Definition twelve_turns : list pyval :=
  map (fun c => PDict [(lit "role", PStr (lit "user"));
                       (lit "content", PStr [c])])
      (lit "abcdefghijkl").

(** The last ten of them, saying [c] to [l]. *)
Definition last_ten_turns : list dict :=
  map (fun c => [(lit "role", PStr (lit "user")); (lit "content", PStr [c])])
      (lit "cdefghijkl").

(** ** What a pattern matches

    [lang r w]: the text [w] is matched by [r]; [denote r w g g'] also
    follows the groups.  [span p s] is the length of the longest prefix
    of [s] made of characters of class [p]. *)

Fixpoint lang (r : regex) (w : str) : Prop :=
  match r with
  | Cls p => exists c, w = [c] /\ p c = true
  | Rep p lo => forallb p w = true /\ lo <= length w
  | Cat r1 r2 => exists w1 w2, w = w1 ++ w2 /\ lang r1 w1 /\ lang r2 w2
  | Grp _ r1 => lang r1 w
  end.

Fixpoint denote (r : regex) (w : str) (g g' : groups) : Prop :=
  match r with
  | Cls p => (exists c, w = [c] /\ p c = true) /\ g' = g
  | Rep p lo => (forallb p w = true /\ lo <= length w) /\ g' = g
  | Cat r1 r2 =>
      exists w1 w2 g1,
        w = w1 ++ w2 /\ denote r1 w1 g g1 /\ denote r2 w2 g1 g'
  | Grp i r1 => exists g1, denote r1 w g g1 /\ g' = set_group i w g1
  end.

Fixpoint nullable (r : regex) : bool :=
  match r with
  | Cls _ => false
  | Rep _ lo => Nat.eqb lo 0
  | Cat r1 r2 => nullable r1 && nullable r2
  | Grp _ r1 => nullable r1
  end.

Fixpoint span (p : char -> bool) (s : str) : nat :=
  match s with
  | c :: s' => if p c then S (span p s') else 0
  | [] => 0
  end.

(** The relation between a text and its rewriting by [re.sub] for a
    pattern that cannot match the empty string: unmatched characters are
    copied, each match is replaced by the expansion of the template. *)
Inductive rewrites (r : regex) (t : template) : str -> str -> Prop :=
| rw_nil : rewrites r t [] []
| rw_keep c s out :
    match_at r (c :: s) = None ->
    rewrites r t s out ->
    rewrites r t (c :: s) (c :: out)
| rw_match w s g out :
    w <> [] ->
    match_at r (w ++ s) = Some (length w, g) ->
    denote r w no_groups g ->
    rewrites r t s out ->
    rewrites r t (w ++ s) (expand t g ++ out).

(** ** Shapes of the formatted text

    [run_le p n s]: no run of characters of class [p] in [s] is longer
    than [n].  A solid character is one the cleanup cannot remove: neither
    whitespace nor a markdown marker. *)

Fixpoint run_le (p : char -> bool) (n : nat) (s : str) : bool :=
  match s with
  | [] => true
  | _ :: s' => (span p s <=? n) && run_le p n s'
  end.


Definition is_solid (c : char) : bool :=
  negb (is_space c || is_star c || is_marker c).

Definition not_space (c : char) : Prop := is_space c = false.

(** ** Clean text

    Text without markdown markers, and text whose whitespace is
    normalized: no whitespace at either end, and every whitespace
    character a space that stands alone.  [single p s]: every character of
    class [p] in [s] is a space followed by a character outside [p]. *)

Definition no_markers (x : str) : bool :=
  forallb (fun c => negb (is_star c || is_marker c)) x.

Fixpoint single (p : char -> bool) (s : str) : bool :=
  match s with
  | [] => true
  | c :: s' =>
      (if p c then is_char SP c && negb (p (hd SP s')) else true)
      && single p s'
  end.

Definition normalized (x : str) : bool :=
  match x with
  | [] => true
  | c :: _ => negb (is_space c) && single is_space x
  end.

(** [[A-Z][A-Z\s]+:[^ ]]: a heading with text right after its colon. *)
Definition re_heading_glued : regex :=
  (re_heading @@ Cls (fun c => negb (is_char SP c)))%re.

(** [breaks x y]: [y] is [x] with a newline put before some of its
    spaces. *)
Inductive breaks : str -> str -> Prop :=
| br_nil : breaks [] []
| br_keep c x y : breaks x y -> breaks (c :: x) (c :: y)
| br_line x y : breaks x y -> breaks (SP :: x) (NL :: SP :: y).

(** Every newline of [y] is followed by a space. *)
Definition broken_before_space (y : str) : Prop :=
  forall s1 s2, y = s1 ++ NL :: s2 -> exists s3, s2 = SP :: s3.

(** * The handlers and the formatter at work *)

Example format_response_bold :
  format_response ascii_decimal (Some (lit "***bold*** and `code`")) =
  lit "bold and code".
Proof. reflexivity. Qed.

Example format_response_heading :
  format_response ascii_decimal (Some (lit "  STEPS: first,   second  ")) =
  lit "STEPS:" ++ [NL] ++ lit " first, second".
Proof. reflexivity. Qed.

Example chat_hello :
  chat_stub (json_request (PDict [(lit "message", PStr (lit "hello"))]))
            empty_world =
  ({| status := 200; body := [(lit "response", lit "Hi there!")] |},
   {| disk := [];
      asked := [{| prompt := SYSTEM_INSTRUCTION ++ lit "hello" ++ [NL; NL]
                             ++ lit "Assistant:";
                   attachment := None |}] |}).
Proof. reflexivity. Qed.

Example chat_no_body :
  chat_stub (json_request (PDict [])) empty_world =
  ({| status := 400; body := [(lit "error", lit "No message provided")] |},
   empty_world).
Proof. reflexivity. Qed.

Example chat_history_of_wrong_type :
  status (fst (chat_stub
                 (json_request
                    (PDict [(lit "message", PStr (lit "hello"));
                            (lit "conversation_history", PInt 7)]))
                 empty_world)) = 500.
Proof. reflexivity. Qed.

(** * Properties of the matcher *)

Lemma denote_lang r : forall w g g', denote r w g g' -> lang r w.
Proof.
  induction r as [p | p lo | r1 IH1 r2 IH2 | i r1 IH1]; simpl; intros w g g' H.
  - apply H.
  - apply H.
  - destruct H as (w1 & w2 & g1 & -> & H1 & H2).
    exists w1, w2. eauto.
  - destruct H as (g1 & H1 & _). eauto.
Qed.

Lemma lang_nonempty r : nullable r = false -> forall w, lang r w -> w <> [].
Proof.
  induction r as [p | p lo | r1 IH1 r2 IH2 | i r1 IH1]; simpl; intros Hn w H.
  - destruct H as (c & -> & _). discriminate.
  - destruct H as (_ & Hlo). apply Nat.eqb_neq in Hn.
    destruct w; simpl in *; [lia | discriminate].
  - destruct H as (w1 & w2 & -> & H1 & H2).
    apply andb_false_iff in Hn. intros E. apply app_eq_nil in E.
    destruct E as [-> ->].
    destruct Hn as [Hn | Hn]; [eapply IH1 | eapply IH2]; eauto.
  - eauto.
Qed.

Lemma rep_sound R p (k : str -> option R) x :
  forall s lo, rep p lo s k = Some x ->
  exists w s', s = w ++ s' /\ forallb p w = true /\ lo <= length w
               /\ k s' = Some x.
Proof.
  induction s as [| c s IH]; intros lo H.
  - destruct lo; [| discriminate]. exists [], []. auto.
  - assert (Hstop : (if Nat.eqb lo 0 then k (c :: s) else None) = Some x ->
                    exists w s', c :: s = w ++ s' /\ forallb p w = true
                                 /\ lo <= length w /\ k s' = Some x).
    { destruct lo; [| discriminate].
      intros Hk. exists [], (c :: s). auto. }
    cbn [rep] in H. cbv zeta in H.
    destruct (p c) eqn:Hc; [| auto].
    destruct (rep p (pred lo) s k) as [y |] eqn:Hrep; [| auto].
    injection H as ->. apply IH in Hrep.
    destruct Hrep as (w & s' & -> & Hw & Hlo & Hk).
    exists (c :: w), s'. simpl. rewrite Hc, Hw. repeat split; auto. lia.
Qed.

Lemma firstn_consumed (w s' : str) :
  firstn (length (w ++ s') - length s') (w ++ s') = w.
Proof.
  rewrite length_app, Nat.add_sub.
  rewrite firstn_app, Nat.sub_diag, firstn_all. simpl. apply app_nil_r.
Qed.

Lemma run_sound R r :
  forall s g (k : str -> groups -> option R) x,
    run r s g k = Some x ->
    exists w s' g', s = w ++ s' /\ denote r w g g' /\ k s' g' = Some x.
Proof.
  induction r as [p | p lo | r1 IH1 r2 IH2 | i r1 IH1]; simpl; intros s g k x H.
  - destruct s as [| c s]; [discriminate |].
    destruct (p c) eqn:Hc; [| discriminate].
    exists [c], s, g. repeat split; eauto.
  - apply rep_sound in H. destruct H as (w & s' & -> & Hw & Hlo & Hk).
    exists w, s', g. auto.
  - apply IH1 in H. destruct H as (w1 & s1 & g1 & -> & H1 & H).
    apply IH2 in H. destruct H as (w2 & s2 & g2 & -> & H2 & H).
    exists (w1 ++ w2), s2, g2. rewrite <- app_assoc. repeat split; auto.
    exists w1, w2, g1. auto.
  - apply IH1 in H. destruct H as (w & s' & g1 & -> & H1 & H).
    rewrite firstn_consumed in H.
    exists w, s', (set_group i w g1). repeat split; eauto.
Qed.

Lemma rep_complete R p (k : str -> option R) s' :
  k s' <> None ->
  forall w lo, forallb p w = true -> lo <= length w ->
               rep p lo (w ++ s') k <> None.
Proof.
  intros Hk. induction w as [| c w IH]; intros lo Hw Hlo; simpl in *.
  - assert (lo = 0) as -> by lia. simpl.
    destruct s' as [| c s]; simpl; auto.
    destruct (p c); auto.
    destruct (rep p 0 s k); [discriminate | auto].
  - apply andb_true_iff in Hw. destruct Hw as [Hc Hw]. rewrite Hc.
    specialize (IH (pred lo) Hw ltac:(lia)).
    destruct (rep p (pred lo) (w ++ s') k); [discriminate | contradiction].
Qed.

Lemma run_complete R r :
  forall w s' g (k : str -> groups -> option R),
    lang r w ->
    (forall g', k s' g' <> None) ->
    run r (w ++ s') g k <> None.
Proof.
  induction r as [p | p lo | r1 IH1 r2 IH2 | i r1 IH1]; simpl;
    intros w s' g k H Hk.
  - destruct H as (c & -> & Hc). simpl. rewrite Hc. auto.
  - destruct H as (Hw & Hlo). apply rep_complete; auto.
  - destruct H as (w1 & w2 & -> & H1 & H2). rewrite <- app_assoc.
    apply IH1; auto.
  - apply IH1; auto.
Qed.

Lemma match_at_sound r s n g :
  match_at r s = Some (n, g) ->
  exists w s', s = w ++ s' /\ n = length w /\ denote r w no_groups g.
Proof.
  unfold match_at. intros H. apply run_sound in H.
  destruct H as (w & s' & g' & -> & Hd & [= <- <-]).
  exists w, s'. repeat split; auto.
  rewrite length_app. lia.
Qed.

Lemma match_at_complete r w s' : lang r w -> match_at r (w ++ s') <> None.
Proof.
  intros H. unfold match_at. apply run_complete; auto. discriminate.
Qed.

Lemma re_search_none r s :
  re_search r s = false ->
  forall s1 s2, s = s1 ++ s2 -> match_at r s2 = None.
Proof.
  induction s as [| c s IH]; simpl; intros H s1 s2 E.
  - symmetry in E. apply app_eq_nil in E. destruct E as [_ ->].
    destruct (match_at r []); [discriminate | reflexivity].
  - destruct (match_at r (c :: s)) eqn:Hm; [discriminate |].
    destruct s1 as [| c1 s1]; simpl in E.
    + subst s2. exact Hm.
    + injection E as _ E. eauto.
Qed.

(** * Properties of [re.sub] *)

Lemma sub_from_skip r t :
  forall s n, sub_from r t s n = sub_from r t (skipn n s) 0.
Proof.
  induction s as [| c s IH]; intros [| n]; simpl; auto.
Qed.

Lemma re_sub_rewrites r t :
  nullable r = false -> forall s, rewrites r t s (re_sub r t s).
Proof.
  intros Hn s. unfold re_sub.
  remember (length s) as m eqn:Hm.
  revert s Hm. induction m as [m IH] using lt_wf_ind. intros s Hm.
  destruct s as [| c s]; simpl; [constructor |].
  destruct (match_at r (c :: s)) as [[n g] |] eqn:Hmatch.
  - destruct (match_at_sound _ _ Hmatch) as (w & s' & E & -> & Hd).
    assert (Hw : w <> []) by (eapply lang_nonempty; eauto using denote_lang).
    destruct w as [| c' w]; [contradiction |].
    simpl in E. injection E as <- ->. simpl.
    rewrite sub_from_skip, skipn_app, skipn_all, Nat.sub_diag. simpl.
    change (c :: w ++ s') with ((c :: w) ++ s') in *.
    apply rw_match; auto.
    eapply IH; [| reflexivity]. subst m. simpl. rewrite length_app. lia.
  - constructor; auto. eapply IH; [| reflexivity]. subst m. simpl. lia.
Qed.

Lemma re_sub_id r t s :
  (forall s1 s2, s = s1 ++ s2 -> match_at r s2 = None) -> re_sub r t s = s.
Proof.
  unfold re_sub. induction s as [| c s IH]; intros H; simpl; auto.
  rewrite (H [] (c :: s) eq_refl). f_equal. apply IH.
  intros s1 s2 ->. apply (H (c :: s1)). reflexivity.
Qed.

(** ** Patterns that are one greedy repetition *)

Lemma span_le p s : span p s <= length s.
Proof.
  induction s as [| c s IH]; simpl; [lia |]. destruct (p c); simpl; lia.
Qed.

Lemma span_app p s1 s2 : span p s2 = 0 -> span p (s1 ++ s2) = span p s1.
Proof.
  intros H. induction s1 as [| c s1 IH]; simpl; auto.
  destruct (p c); auto.
Qed.

Lemma span_all p s : forallb p s = true -> span p s = length s.
Proof.
  induction s as [| c s IH]; simpl; auto.
  intros H. apply andb_true_iff in H. destruct H as [-> H]. auto.
Qed.

Lemma rep_greedy R p (k : str -> option R) :
  forall s lo,
    k (skipn (span p s) s) <> None ->
    rep p lo s k = if lo <=? span p s then k (skipn (span p s) s) else None.
Proof.
  induction s as [| c s IH]; intros lo Hk.
  - destruct lo; reflexivity.
  - cbn [rep span] in *. cbv zeta. destruct (p c) eqn:Hc.
    + cbn [skipn] in *. rewrite (IH (pred lo) Hk).
      destruct lo as [| lo]; cbn [pred Nat.eqb].
      * simpl. destruct (k (skipn (span p s) s)); [reflexivity | contradiction].
      * change (S lo <=? S (span p s)) with (lo <=? span p s).
        destruct (lo <=? span p s); [| reflexivity].
        destruct (k (skipn (span p s) s)); [reflexivity | contradiction].
    + destruct lo; reflexivity.
Qed.

Lemma match_at_rep p lo s :
  match_at (Rep p lo) s =
  if lo <=? span p s then Some (span p s, no_groups) else None.
Proof.
  unfold match_at. cbn [run]. rewrite rep_greedy by discriminate.
  destruct (lo <=? span p s); [| reflexivity].
  rewrite length_skipn. pose proof (span_le p s).
  do 2 f_equal. lia.
Qed.

Lemma re_sub_rep_keep p lo t c s :
  span p (c :: s) < lo ->
  re_sub (Rep p lo) t (c :: s) = c :: re_sub (Rep p lo) t s.
Proof.
  intros H. unfold re_sub. cbn [sub_from]. rewrite match_at_rep.
  apply Nat.leb_gt in H. rewrite H. reflexivity.
Qed.

Lemma re_sub_rep_match p lo t s :
  0 < lo -> lo <= span p s ->
  re_sub (Rep p lo) t s =
  expand t no_groups ++ re_sub (Rep p lo) t (skipn (span p s) s).
Proof.
  intros H0 H. unfold re_sub. destruct s as [| c s]; [simpl in H; lia |].
  cbn [sub_from]. rewrite match_at_rep.
  apply Nat.leb_le in H. rewrite H.
  destruct (span p (c :: s)) as [| n] eqn:E.
  - apply Nat.leb_le in H. lia.
  - rewrite sub_from_skip. reflexivity.
Qed.

Lemma re_sub_rep_app p lo t s2 :
  0 < lo -> span p s2 = 0 ->
  forall s1, re_sub (Rep p lo) t (s1 ++ s2) =
             re_sub (Rep p lo) t s1 ++ re_sub (Rep p lo) t s2.
Proof.
  intros H0 H2 s1. remember (length s1) as m eqn:Hm. revert s1 Hm.
  induction m as [m IH] using lt_wf_ind. intros s1 Hm.
  destruct s1 as [| c s1]; [reflexivity |].
  destruct (Nat.le_gt_cases lo (span p (c :: s1))) as [Hge | Hlt].
  - rewrite (@re_sub_rep_match p lo t (c :: s1)) by auto.
    rewrite re_sub_rep_match by (rewrite ?span_app; auto).
    rewrite span_app by auto.
    pose proof (span_le p (c :: s1)) as Hle.
    rewrite skipn_app.
    replace (span p (c :: s1) - length (c :: s1)) with 0 by lia.
    cbn [skipn]. rewrite <- app_assoc. f_equal.
    eapply IH; [| reflexivity]. subst m. rewrite length_skipn.
    cbn [length] in *. lia.
  - rewrite (@re_sub_rep_keep p lo t c s1) by auto.
    change ((c :: s1) ++ s2) with (c :: s1 ++ s2).
    rewrite re_sub_rep_keep
      by (change (c :: s1 ++ s2) with ((c :: s1) ++ s2); rewrite span_app; auto).
    simpl. f_equal. eapply IH; [| reflexivity]. subst m. simpl. lia.
Qed.

Lemma re_sub_rep_all p lo t s :
  0 < lo -> lo <= length s -> forallb p s = true ->
  re_sub (Rep p lo) t s = expand t no_groups.
Proof.
  intros H0 Hlo Hs. rewrite re_sub_rep_match; rewrite ?span_all; auto.
  rewrite skipn_all. unfold re_sub. simpl. apply app_nil_r.
Qed.

Lemma re_sub_rep_app_last p lo t s1 s2 :
  0 < lo -> p (last s1 SP) = false ->
  re_sub (Rep p lo) t (s1 ++ s2) =
  re_sub (Rep p lo) t s1 ++ re_sub (Rep p lo) t s2.
Proof.
  intros H0 H. destruct s1 as [| c0 s0] using rev_ind; [reflexivity |].
  clear IHs0. rewrite last_last in H.
  assert (Hone : forall s, re_sub (Rep p lo) t (c0 :: s)
                           = c0 :: re_sub (Rep p lo) t s).
  { intros s. apply re_sub_rep_keep. simpl. rewrite H. exact H0. }
  rewrite <- app_assoc.
  assert (Hsp : forall s, span p ([c0] ++ s) = 0)
    by (intros; simpl; now rewrite H).
  rewrite (@re_sub_rep_app p lo t ([c0] ++ s2)) by auto.
  rewrite (@re_sub_rep_app p lo t [c0]) by (first [exact H0 | apply (Hsp [])]).
  cbn [app]. rewrite !Hone. rewrite <- app_assoc. reflexivity.
Qed.

Lemma span_hd p s : p (hd SP s) = false -> span p s = 0.
Proof.
  destruct s as [| c s]; simpl; auto. intros ->. reflexivity.
Qed.

(** * The newline rule (line 73) *)

Lemma repeat_NL_all n : forallb is_nl (repeat NL n) = true.
Proof.
  induction n; simpl; auto.
Qed.

(** The rule taken alone, on a text with a run of four or more
    newlines: the run, taken whole (no newline before or after it), is
    replaced by three newlines, and the text on either side is rewritten
    on its own. *)
Lemma collapse_newlines_run (pre post : str) (n : nat) :
  4 <= n ->
  is_nl (last pre SP) = false ->
  is_nl (hd SP post) = false ->
  collapse_newlines (pre ++ repeat NL n ++ post) =
  collapse_newlines pre ++ [NL; NL; NL] ++ collapse_newlines post.
Proof.
  intros Hn Hpre Hpost. unfold collapse_newlines, re_newlines.
  rewrite re_sub_rep_app_last by (auto; lia).
  rewrite re_sub_rep_app by (auto using span_hd; lia).
  rewrite (@re_sub_rep_all is_nl 4 _ (repeat NL n))
    by (rewrite ?repeat_length; auto using repeat_NL_all; lia).
  reflexivity.
Qed.

Example collapse_newlines_four :
  collapse_newlines (lit "a" ++ repeat NL 4 ++ lit "b") =
  lit "a" ++ repeat NL 3 ++ lit "b".
Proof. reflexivity. Qed.

(** * Texts without newlines *)

Lemma rewrites_Forall (Q : char -> Prop) r t s out :
  rewrites r t s out ->
  (forall c s', In c s -> match_at r (c :: s') = None -> Q c) ->
  (forall w g, denote r w no_groups g -> Forall Q (expand t g)) ->
  Forall Q out.
Proof.
  intros H Hkeep Hexp.
  induction H as [| c s out Hm H IH | w s g out Hw Hm Hd H IH].
  - constructor.
  - constructor.
    + eapply Hkeep; [left; reflexivity | exact Hm].
    + apply IH. intros c' s' Hin. apply Hkeep. right. exact Hin.
  - apply Forall_app. split; [eauto |].
    apply IH. intros c' s' Hin. apply Hkeep. apply in_or_app. right. exact Hin.
Qed.

Lemma is_char_eq a c : is_char a c = true -> c = a.
Proof. apply N.eqb_eq. Qed.

Lemma match_at_rep_none p c s :
  match_at (Rep p 1) (c :: s) = None -> p c = false.
Proof.
  rewrite match_at_rep. simpl. destruct (p c); [discriminate | reflexivity].
Qed.

Lemma space_not_nl c : is_space c = false \/ c = SP -> is_nl c = false.
Proof.
  intros [H | ->]; [| reflexivity].
  destruct (is_nl c) eqn:E; [| reflexivity].
  apply is_char_eq in E. subst c. discriminate.
Qed.

Lemma collapse_spaces_chars s :
  Forall (fun c => is_space c = false \/ c = SP) (collapse_spaces s).
Proof.
  eapply rewrites_Forall.
  - apply re_sub_rewrites. reflexivity.
  - intros c s' _ H. left. eapply match_at_rep_none; eauto.
  - intros w g _. simpl. constructor; auto.
Qed.

Lemma collapse_spaces_no_nl s :
  Forall (fun c => is_nl c = false) (collapse_spaces s).
Proof.
  eapply Forall_impl; [| apply collapse_spaces_chars].
  apply space_not_nl.
Qed.

Lemma lstrip_Forall (Q : char -> Prop) s : Forall Q s -> Forall Q (lstrip s).
Proof.
  induction 1 as [| c s Hc H IH]; simpl; auto.
  destruct (is_space c); auto.
Qed.

Lemma strip_Forall (Q : char -> Prop) s : Forall Q s -> Forall Q (strip s).
Proof.
  intros H. unfold strip, rstrip.
  apply Forall_rev, lstrip_Forall, Forall_rev, lstrip_Forall, H.
Qed.

(** A pattern all of whose matches contain a newline leaves a text
    without newlines as it is. *)
Lemma re_sub_needs_nl r t s :
  (forall w, lang r w -> Exists (fun c => is_nl c = true) w) ->
  Forall (fun c => is_nl c = false) s ->
  re_sub r t s = s.
Proof.
  intros Hr Hs. apply re_sub_id. intros s1 s2 ->.
  destruct (match_at r s2) as [[n g] |] eqn:Hm; [| reflexivity].
  apply match_at_sound in Hm. destruct Hm as (w & s' & -> & _ & Hd).
  apply denote_lang, Hr in Hd. apply Exists_exists in Hd.
  destruct Hd as (c & Hin & Hc).
  rewrite Forall_forall in Hs. rewrite Hs in Hc; [discriminate |].
  apply in_or_app. right. apply in_or_app. left. exact Hin.
Qed.

Lemma lang_starts_nl r w :
  lang (Cls is_nl @@ r) w -> Exists (fun c => is_nl c = true) w.
Proof.
  simpl. intros (w1 & w2 & -> & (c & -> & Hc) & _). left. exact Hc.
Qed.

Lemma lang_sentence_nl w :
  lang re_sentence w -> Exists (fun c => is_nl c = true) w.
Proof.
  simpl. intros (w1 & w2 & -> & _ & w3 & w4 & -> & _ & H).
  apply Exists_app. right. apply Exists_app. right.
  apply (lang_starts_nl (r := Grp 2 (Cls is_upper))). exact H.
Qed.

Lemma lang_newlines_nl w :
  lang re_newlines w -> Exists (fun c => is_nl c = true) w.
Proof.
  simpl. intros (Hw & Hlen). destruct w as [| c w]; [simpl in Hlen; lia |].
  simpl in Hw. apply andb_true_iff in Hw. left. apply Hw.
Qed.

(** * Occurrences of a pattern *)

Lemma re_search_true r s :
  re_search r s = true -> exists s1 w s2, s = s1 ++ w ++ s2 /\ lang r w.
Proof.
  assert (Hhere : forall s n g, match_at r s = Some (n, g) ->
                                exists s1 w s2, s = s1 ++ w ++ s2 /\ lang r w).
  { intros s0 n g Hm. apply match_at_sound in Hm.
    destruct Hm as (w & s' & -> & _ & Hd).
    exists [], w, s'. split; [reflexivity | eauto using denote_lang]. }
  induction s as [| c s IH]; simpl.
  - destruct (match_at r []) as [[n g] |] eqn:Hm; [eauto | discriminate].
  - destruct (match_at r (c :: s)) as [[n g] |] eqn:Hm; [eauto |].
    intros H. destruct (IH H) as (s1 & w & s2 & -> & Hw).
    exists (c :: s1), w, s2. auto.
Qed.

Lemma re_search_false r s :
  re_search r s = false ->
  forall s1 w s2, s = s1 ++ w ++ s2 -> ~ lang r w.
Proof.
  intros H s1 w s2 E Hw.
  apply (match_at_complete r w s2 Hw).
  eapply re_search_none; eauto.
Qed.

(** * The heading pattern *)

Lemma lang_heading w :
  lang re_heading w <->
  exists u body,
    w = u :: body ++ [chr ":"] /\ is_upper u = true /\ body <> []
    /\ forallb is_caps_or_space body = true.
Proof.
  simpl. split.
  - intros (w1 & w2 & -> & (u & -> & Hu) & w3 & w4 & -> & (Hb & Hlen)
            & c & -> & Hc).
    apply is_char_eq in Hc. subst c. exists u, w3. repeat split; auto.
    intros ->. simpl in Hlen. lia.
  - intros (u & body & -> & Hu & Hne & Hb).
    exists [u], (body ++ [chr ":"]). repeat split; eauto.
    exists body, [chr ":"]. repeat split; eauto.
    destruct body; [contradiction | simpl; lia].
Qed.

Lemma spaces_caps_or_space w :
  forallb is_space w = true -> forallb is_caps_or_space w = true.
Proof.
  rewrite !forallb_forall. intros H c Hc. unfold is_caps_or_space.
  rewrite (H c Hc). apply orb_true_r.
Qed.

(** Undoing the whitespace collapse: the run of heading characters that
    leads to a colon comes from such a run of the original text. *)
Lemma squeeze_body t u :
  rewrites re_spaces [Txt [SP]] t u ->
  forall body rest,
    u = body ++ chr ":" :: rest ->
    forallb is_caps_or_space body = true ->
    exists body' rest',
      t = body' ++ chr ":" :: rest'
      /\ forallb is_caps_or_space body' = true
      /\ (body <> [] -> body' <> []).
Proof.
  induction 1 as [| c s out Hm H IH | w s g out Hw Hm Hd H IH];
    intros body rest E Hb.
  - destruct body; discriminate.
  - destruct body as [| b body]; simpl in E; injection E as -> ->.
    + exists [], s. repeat split; auto.
    + simpl in Hb. apply andb_true_iff in Hb. destruct Hb as [Hb1 Hb].
      destruct (IH body rest eq_refl Hb) as (body' & rest' & -> & Hb' & _).
      exists (b :: body'), rest'. simpl. rewrite Hb1, Hb'.
      repeat split; auto. discriminate.
  - simpl in E. destruct body as [| b body]; simpl in E; injection E as E1 ->.
    + vm_compute in E1. discriminate.
    + simpl in Hb. apply andb_true_iff in Hb. destruct Hb as [_ Hb].
      destruct (IH body rest eq_refl Hb) as (body' & rest' & -> & Hb' & _).
      destruct Hd as [[Hsp _] _].
      exists (w ++ body'), rest'. rewrite <- app_assoc. split; [reflexivity |].
      split.
      * rewrite forallb_app, Hb', (spaces_caps_or_space _ Hsp). reflexivity.
      * intros _ E. apply app_eq_nil in E. destruct E. contradiction.
Qed.

Lemma squeeze_heading t u :
  rewrites re_spaces [Txt [SP]] t u ->
  (exists s1 w s2, u = s1 ++ w ++ s2 /\ lang re_heading w) ->
  exists s1 w s2, t = s1 ++ w ++ s2 /\ lang re_heading w.
Proof.
  induction 1 as [| c s out Hm H IH | w0 s g out Hw0 Hm Hd H IH];
    intros (s1 & w & s2 & E & Hw).
  - apply lang_heading in Hw. destruct Hw as (u & body & -> & _).
    destruct s1; discriminate.
  - destruct s1 as [| x s1]; simpl in E.
    + apply lang_heading in Hw. destruct Hw as (u & body & -> & Hu & Hne & Hb).
      simpl in E. rewrite <- app_assoc in E. injection E as -> ->.
      destruct (squeeze_body H body s2 eq_refl Hb)
        as (body' & rest' & -> & Hb' & Hne').
      exists [], (u :: body' ++ [chr ":"]), rest'. split.
      * simpl. rewrite <- app_assoc. reflexivity.
      * apply lang_heading. exists u, body'. auto.
    + injection E as -> ->.
      destruct IH as (a & w' & b & -> & Hw'); [eauto |].
      exists (x :: a), w', b. auto.
  - simpl in E. destruct s1 as [| x s1]; simpl in E.
    + apply lang_heading in Hw. destruct Hw as (u & body & -> & Hu & _).
      injection E as <- _. discriminate.
    + injection E as _ ->.
      destruct IH as (a & w' & b & -> & Hw'); [eauto |].
      exists (w0 ++ a), w', b. rewrite <- app_assoc. auto.
Qed.

Lemma collapse_spaces_no_heading t :
  re_search re_heading t = false ->
  re_search re_heading (collapse_spaces t) = false.
Proof.
  intros H. destruct (re_search re_heading (collapse_spaces t)) eqn:E; auto.
  apply re_search_true in E.
  apply (squeeze_heading (t := t)) in E;
    [| apply re_sub_rewrites; reflexivity].
  destruct E as (s1 & w & s2 & E & Hw).
  exfalso. eapply re_search_false; eauto.
Qed.

(** Without a heading the heading rule of line 69 finds nothing. *)
Lemma heading_text_id t u :
  re_search re_heading u = false -> re_sub re_heading_text t u = u.
Proof.
  intros H. apply re_sub_id. intros s1 s2 ->.
  destruct (match_at re_heading_text s2) as [[n g] |] eqn:Hm; [| reflexivity].
  apply match_at_sound in Hm. destruct Hm as (w & s' & -> & _ & Hd).
  apply denote_lang in Hd. destruct Hd as (w1 & w2 & -> & H1 & _).
  exfalso. apply (@re_search_false _ _ H s1 w1 (w2 ++ s')); auto.
  rewrite <- !app_assoc. reflexivity.
Qed.

Lemma blanks_no_nl s :
  Forall (fun c => is_nl c = false) s ->
  Forall (fun c => is_nl c = false) (re_sub re_blanks [Txt [SP]] s).
Proof.
  intros Hs. eapply rewrites_Forall.
  - apply re_sub_rewrites. reflexivity.
  - intros c s' Hin _. rewrite Forall_forall in Hs. auto.
  - intros w g _. simpl. constructor; auto.
Qed.

Section NoNewline.
Variable is_decimal : char -> bool.

Lemma restructure_no_nl u :
  Forall (fun c => is_nl c = false) u ->
  re_search re_heading u = false ->
  restructure is_decimal u = re_sub re_blanks [Txt [SP]] u.
Proof.
  intros Hnl Hh. unfold restructure, collapse_newlines.
  rewrite (@re_sub_needs_nl re_heading_line)
    by (try assumption; intros ?; apply lang_starts_nl).
  rewrite heading_text_id by assumption.
  rewrite (@re_sub_needs_nl (re_numbered is_decimal))
    by (try assumption; intros ?; apply lang_starts_nl).
  rewrite (@re_sub_needs_nl re_bullet)
    by (try assumption; intros ?; apply lang_starts_nl).
  rewrite (@re_sub_needs_nl re_sentence)
    by (try assumption; apply lang_sentence_nl).
  rewrite (@re_sub_needs_nl re_newlines)
    by (try assumption; apply lang_newlines_nl).
  reflexivity.
Qed.

Lemma format_response_no_nl text :
  re_search re_heading (strip_markers (strip text)) = false ->
  Forall (fun c => is_nl c = false) (format_response is_decimal (Some text)).
Proof.
  intros H. destruct text as [| c text].
  - apply Forall_forall. intros x Hx.
    apply (forallb_forall (fun c => negb (is_nl c)) fallback) in Hx.
    + now apply negb_true_iff.
    + reflexivity.
  - cbn [format_response]. apply strip_Forall.
    rewrite restructure_no_nl
      by auto using collapse_spaces_no_nl, collapse_spaces_no_heading.
    apply blanks_no_nl, collapse_spaces_no_nl.
Qed.
End NoNewline.

(** C8, with the heading looked for where the code looks for it: when the
    text that is left once the input is trimmed and its markdown markers
    are removed (lines 60-64) holds no all-caps heading followed by a
    colon, the formatted response holds no newline. *)
Theorem format_response_no_newline (is_decimal : char -> bool) (text : str) :
  re_search re_heading (strip_markers (strip text)) = false ->
  ~ In NL (format_response is_decimal (Some text)).
Proof.
  intros H Hin.
  pose proof (format_response_no_nl is_decimal text H) as Hall.
  rewrite Forall_forall in Hall. specialize (Hall NL Hin). discriminate.
Qed.

Lemma format_response_no_newline_witness :
  re_search re_heading
    (strip_markers (strip (lit "  Hello *world*: fine. "))) = false
  /\ ~ In NL (format_response ascii_decimal
                (Some (lit "  Hello *world*: fine. "))).
Proof.
  split; [reflexivity |].
  apply format_response_no_newline. reflexivity.
Defined.

(** C8 as stated fails: the input [A*B:c] holds no heading, the removal
    of the star makes one, and the response holds a newline. *)
Lemma format_response_newline_after_markers :
  re_search re_heading (lit "A*B:c") = false
  /\ format_response ascii_decimal (Some (lit "A*B:c")) =
     lit "AB:" ++ [NL] ++ lit "c"
  /\ In NL (format_response ascii_decimal (Some (lit "A*B:c"))).
Proof.
  split; [reflexivity |]. split; [reflexivity |].
  vm_compute. auto 10.
Qed.

(** * Clean text *)

Lemma re_sub_rep_none p lo t s :
  0 < lo -> forallb (fun c => negb (p c)) s = true ->
  re_sub (Rep p lo) t s = s.
Proof.
  intros H0. induction s as [| c s IH]; [reflexivity |].
  simpl. intros H. apply andb_true_iff in H. destruct H as [Hc Hs].
  apply negb_true_iff in Hc.
  rewrite re_sub_rep_keep by (simpl; rewrite Hc; exact H0).
  f_equal. auto.
Qed.

Lemma strip_markers_id x : no_markers x = true -> strip_markers x = x.
Proof.
  unfold no_markers, strip_markers, re_stars, re_markers. intros H.
  assert (Hc : forall c, In c x -> is_star c = false /\ is_marker c = false).
  { rewrite forallb_forall in H. intros c Hc.
    apply orb_false_iff, negb_true_iff, H, Hc. }
  rewrite (@re_sub_rep_none is_star 1 [] x), re_sub_rep_none; auto.
  - apply forallb_forall. intros c Hin. apply negb_true_iff, (Hc c Hin).
  - apply forallb_forall. intros c Hin. apply negb_true_iff, (Hc c Hin).
Qed.

Lemma single_sub p s :
  single p s = true -> re_sub (Rep p 1) [Txt [SP]] s = s.
Proof.
  induction s as [| c s IH]; [reflexivity |].
  cbn [single]. intros H. apply andb_true_iff in H. destruct H as [Hc Hs].
  destruct (p c) eqn:Hpc.
  - apply andb_true_iff in Hc. destruct Hc as [Hsp Hnext].
    apply is_char_eq in Hsp. apply negb_true_iff, span_hd in Hnext.
    rewrite re_sub_rep_match by (simpl; rewrite ?Hpc, ?Hnext; lia).
    simpl. rewrite Hpc, Hnext. simpl. fold (re_sub (Rep p 1) [Txt [SP]] s).
    rewrite IH by assumption. congruence.
  - rewrite re_sub_rep_keep by (simpl; rewrite Hpc; lia).
    f_equal. auto.
Qed.

Lemma single_tail p c s : single p (c :: s) = true -> single p s = true.
Proof.
  cbn [single]. intros H. apply andb_true_iff in H. apply H.
Qed.

Lemma single_last p s :
  p SP = true -> single p s = true -> s <> [] -> p (last s SP) = false.
Proof.
  intros Hsp. induction s as [| c s IH]; [contradiction |]. intros H _.
  destruct s as [| c' s].
  - simpl in *. destruct (p c); auto.
    rewrite Hsp, andb_false_r in H. discriminate.
  - change (last (c :: c' :: s) SP) with (last (c' :: s) SP).
    apply IH; [eapply single_tail; eauto | discriminate].
Qed.

Lemma single_space_no_nl s :
  single is_space s = true -> Forall (fun c => is_nl c = false) s.
Proof.
  induction s as [| c s IH]; [constructor |].
  intros H. constructor; [| eauto using single_tail].
  cbn [single] in H. apply andb_true_iff in H. destruct H as [H _].
  apply space_not_nl. destruct (is_space c); auto.
  apply andb_true_iff in H. right. apply is_char_eq, H.
Qed.

Lemma strip_id z :
  is_space (hd SP z) = false -> is_space (last z SP) = false -> strip z = z.
Proof.
  intros Hhd Hlast. unfold strip, rstrip.
  assert (Hl : forall s, is_space (hd SP s) = false -> lstrip s = s).
  { intros [| c s]; simpl; auto. intros ->. reflexivity. }
  rewrite (Hl z Hhd). rewrite Hl; [apply rev_involutive |].
  destruct z as [| c0 z0] using rev_ind; [discriminate |].
  rewrite last_last in Hlast. rewrite rev_app_distr. exact Hlast.
Qed.

(** ** Texts with line breaks before spaces *)

Lemma breaks_app w : forall x y, breaks x y -> breaks (w ++ x) (w ++ y).
Proof.
  induction w as [| c w IH]; simpl; intros x y H; auto using br_keep.
Qed.

Lemma breaks_hd x y :
  breaks x y -> is_space (hd SP x) = false -> hd SP y = hd SP x.
Proof.
  destruct 1; simpl; auto. discriminate.
Qed.

Lemma breaks_cons_inv c x y :
  breaks (c :: x) y -> is_space c = false ->
  exists y', y = c :: y' /\ breaks x y'.
Proof.
  intros H Hc. remember (c :: x) as cx eqn:E.
  destruct H as [| c0 x0 y0 H | x0 y0 H]; [discriminate | |].
  - injection E as -> ->. eauto.
  - injection E as <- _. discriminate.
Qed.

Lemma breaks_last x y :
  breaks x y -> forall c, last (c :: y) SP = last (c :: x) SP.
Proof.
  induction 1 as [| c0 x y H IH | x y H IH]; intros c; auto.
  - change (last (c :: c0 :: y) SP) with (last (c0 :: y) SP).
    change (last (c :: c0 :: x) SP) with (last (c0 :: x) SP). apply IH.
  - change (last (c :: NL :: SP :: y) SP) with (last (SP :: y) SP).
    change (last (c :: SP :: x) SP) with (last (SP :: x) SP). apply IH.
Qed.

Lemma breaks_forallb (Q : char -> bool) x y :
  breaks x y -> Q NL = true -> forallb Q x = true -> forallb Q y = true.
Proof.
  intros H HNL. induction H as [| c x y H IH | x y H IH]; simpl; auto.
  - intros Hx. apply andb_true_iff in Hx. destruct Hx as [-> Hx]. auto.
  - intros Hx. apply andb_true_iff in Hx. destruct Hx as [-> Hx].
    rewrite HNL. auto.
Qed.

Lemma breaks_collapse x y :
  breaks x y -> single is_space x = true -> collapse_spaces y = x.
Proof.
  unfold collapse_spaces, re_spaces.
  induction 1 as [| c x y H IH | x y H IH]; [reflexivity | |]; intros Hx.
  - pose proof (single_tail _ _ _ Hx) as Hx'.
    cbn [single] in Hx. apply andb_true_iff in Hx. destruct Hx as [Hc _].
    destruct (is_space c) eqn:Hsc.
    + apply andb_true_iff in Hc. destruct Hc as [Hsp Hnext].
      apply is_char_eq in Hsp. apply negb_true_iff in Hnext.
      pose proof Hnext as Hy. rewrite <- (breaks_hd H Hnext) in Hy.
      apply span_hd in Hy.
      rewrite re_sub_rep_match by (simpl; rewrite ?Hsc, ?Hy; lia).
      simpl. rewrite Hsc, Hy. simpl.
      fold (re_sub (Rep is_space 1) [Txt [SP]] y).
      rewrite IH by assumption. congruence.
    + rewrite re_sub_rep_keep by (simpl; rewrite Hsc; lia).
      f_equal. auto.
  - pose proof (single_tail _ _ _ Hx) as Hx'.
    cbn [single] in Hx. apply andb_true_iff in Hx. destruct Hx as [Hc _].
    change (is_space SP) with true in Hc. cbn iota in Hc.
    apply andb_true_iff in Hc. destruct Hc as [_ Hnext].
    apply negb_true_iff in Hnext.
    pose proof Hnext as Hy. rewrite <- (breaks_hd H Hnext) in Hy.
    apply span_hd in Hy.
    assert (Hspan : span is_space (NL :: SP :: y) = 2)
      by (cbn [span]; change (is_space NL) with true;
          change (is_space SP) with true; cbn iota; now rewrite Hy).
    rewrite re_sub_rep_match by (rewrite ?Hspan; lia).
    rewrite Hspan. simpl. fold (re_sub (Rep is_space 1) [Txt [SP]] y).
    rewrite IH by assumption. reflexivity.
Qed.

Lemma blank_space c : is_blank c = true -> is_space c = true.
Proof.
  unfold is_blank. intros H. apply orb_true_iff in H.
  destruct H as [H | H]; apply is_char_eq in H; subst c; reflexivity.
Qed.

Lemma breaks_single_blank x y :
  breaks x y -> single is_space x = true -> single is_blank y = true.
Proof.
  assert (Hnb : forall c, is_space c = false -> is_blank c = false).
  { intros c Hc. destruct (is_blank c) eqn:E; auto.
    apply blank_space in E. congruence. }
  induction 1 as [| c x y H IH | x y H IH]; [reflexivity | |]; intros Hx.
  - pose proof (single_tail _ _ _ Hx) as Hx'.
    cbn [single] in *. rewrite (IH Hx'), andb_true_r.
    apply andb_true_iff in Hx. destruct Hx as [Hc _].
    destruct (is_blank c) eqn:Hbc; auto.
    rewrite (blank_space _ Hbc) in Hc.
    apply andb_true_iff in Hc. destruct Hc as [-> Hnext].
    apply negb_true_iff in Hnext.
    rewrite (breaks_hd H Hnext), (Hnb _ Hnext). reflexivity.
  - pose proof (single_tail _ _ _ Hx) as Hx'.
    cbn [single] in *. rewrite (IH Hx'), andb_true_r.
    apply andb_true_iff in Hx. destruct Hx as [Hc _].
    change (is_space SP) with true in Hc. cbn iota in Hc.
    apply andb_true_iff in Hc. destruct Hc as [_ Hnext].
    apply negb_true_iff in Hnext.
    change (is_blank NL) with false. change (is_blank SP) with true.
    cbn iota. rewrite (breaks_hd H Hnext), (Hnb _ Hnext). reflexivity.
Qed.

Lemma breaks_broken x y :
  breaks x y -> Forall (fun c => is_nl c = false) x -> broken_before_space y.
Proof.
  unfold broken_before_space.
  induction 1 as [| c x y H IH | x y H IH]; intros Hx s1 s2 E.
  - destruct s1; discriminate.
  - inversion Hx as [| ? ? Hc Hx']; subst.
    destruct s1 as [| c1 s1]; simpl in E; injection E as -> E.
    + discriminate.
    + eauto.
  - inversion Hx as [| ? ? Hc Hx']; subst.
    destruct s1 as [| c1 s1]; simpl in E.
    + injection E as E. eauto.
    + injection E as _ E. destruct s1 as [| c2 s1]; simpl in E.
      * discriminate.
      * injection E as _ E. eauto.
Qed.

(** A pattern all of whose matches hold a newline followed by something
    else than a space finds nothing in such a text. *)
Lemma re_sub_needs_break r t y :
  (forall w, lang r w -> exists a c b, w = a ++ NL :: c :: b /\ c <> SP) ->
  broken_before_space y ->
  re_sub r t y = y.
Proof.
  intros Hr Hy. apply re_sub_id. intros s1 s2 ->.
  destruct (match_at r s2) as [[n g] |] eqn:Hm; [| reflexivity].
  apply match_at_sound in Hm. destruct Hm as (w & s' & -> & _ & Hd).
  apply denote_lang, Hr in Hd. destruct Hd as (a & c & b & -> & Hc).
  destruct (Hy (s1 ++ a) (c :: b ++ s')) as (s3 & E).
  - rewrite <- !app_assoc. reflexivity.
  - injection E as -> _. contradiction.
Qed.

Lemma lang_numbered_break d w :
  d SP = false ->
  lang (re_numbered d) w -> exists a c b, w = a ++ NL :: c :: b /\ c <> SP.
Proof.
  simpl. intros Hd (w1 & w2 & -> & (c0 & -> & Hc0) & w3 & w4 & ->
                    & (Hw3 & Hlen) & _).
  apply is_char_eq in Hc0. subst c0.
  destruct w3 as [| c w3]; [simpl in Hlen; lia |].
  simpl in Hw3. apply andb_true_iff in Hw3. destruct Hw3 as [Hc _].
  exists [], c, (w3 ++ w4). split; [reflexivity | congruence].
Qed.

Lemma lang_bullet_break w :
  lang re_bullet w -> exists a c b, w = a ++ NL :: c :: b /\ c <> SP.
Proof.
  simpl. intros (w1 & w2 & -> & (c0 & -> & Hc0) & w3 & w4 & ->
                 & (c & -> & Hc) & _).
  apply is_char_eq in Hc0, Hc. subst c0 c.
  exists [], (chr "-"), w4. split; [reflexivity | discriminate].
Qed.

Lemma lang_sentence_break w :
  lang re_sentence w -> exists a c b, w = a ++ NL :: c :: b /\ c <> SP.
Proof.
  simpl. intros (w1 & w2 & -> & _ & w3 & w4 & -> & _ & w5 & w6 & ->
                 & (c0 & -> & Hc0) & c & -> & Hc).
  apply is_char_eq in Hc0. subst c0.
  exists (w1 ++ w3), c, []. split.
  - rewrite <- app_assoc. reflexivity.
  - intros ->. discriminate.
Qed.

Lemma lang_newlines_break w :
  lang re_newlines w -> exists a c b, w = a ++ NL :: c :: b /\ c <> SP.
Proof.
  simpl. intros (Hw & Hlen).
  destruct w as [| c0 [| c w]]; try (simpl in Hlen; lia).
  simpl in Hw. apply andb_true_iff in Hw. destruct Hw as [H0 Hw].
  apply andb_true_iff in Hw. destruct Hw as [H1 _].
  apply is_char_eq in H0, H1. subst.
  exists [], NL, w. split; [reflexivity | discriminate].
Qed.

(** The heading rule, on a text whose headings are all followed by a
    space (or by nothing), puts a newline before that space. *)
Lemma heading_text_breaks x y :
  (forall s1 s2, x = s1 ++ s2 -> match_at re_heading_glued s2 = None) ->
  rewrites re_heading_text [Ref 1; Txt [NL]; Ref 2] x y ->
  breaks x y.
Proof.
  intros Hg H.
  induction H as [| c s out Hm H IH | w s g out Hw Hm Hd H IH].
  - constructor.
  - constructor. apply IH. intros s1 s2 ->. apply (Hg (c :: s1)). reflexivity.
  - destruct Hd as (w1 & w2 & g1 & -> & (g0 & Hd1 & ->)
                    & (g2 & ((c & -> & Hc) & ->) & ->)).
    cbn [expand flat_map]. unfold set_group. cbn [Nat.eqb].
    destruct (is_char SP c) eqn:Hsp.
    + apply is_char_eq in Hsp. subst c.
      rewrite <- !app_assoc. cbn [app]. apply breaks_app, br_line, IH.
      intros s1 s2 ->. apply (Hg (w1 ++ SP :: s1)).
      rewrite <- !app_assoc. reflexivity.
    + exfalso. apply (@match_at_complete re_heading_glued (w1 ++ [c]) s).
      * exists w1, [c]. split; [reflexivity |].
        split; [eapply denote_lang; eauto |].
        exists c. rewrite Hsp. auto.
      * apply (Hg []). reflexivity.
Qed.

Section Clean.
Variable is_decimal : char -> bool.
Hypothesis space_not_decimal : is_decimal SP = false.

Let heading_rule : str -> str :=
  re_sub re_heading_text [Ref 1; Txt [NL]; Ref 2].

Lemma restructure_clean x :
  single is_space x = true ->
  (forall s1 s2, x = s1 ++ s2 -> match_at re_heading_glued s2 = None) ->
  restructure is_decimal x = heading_rule x /\ breaks x (heading_rule x).
Proof.
  intros Hx Hg. unfold restructure, collapse_newlines.
  pose proof (single_space_no_nl _ Hx) as Hnl.
  rewrite (@re_sub_needs_nl re_heading_line)
    by (try assumption; intros ?; apply lang_starts_nl).
  fold (heading_rule x).
  assert (Hb : breaks x (heading_rule x)).
  { apply heading_text_breaks; [exact Hg |].
    apply re_sub_rewrites. reflexivity. }
  split; [| exact Hb].
  pose proof (breaks_broken Hb Hnl) as Hy.
  rewrite (@re_sub_needs_break (re_numbered is_decimal))
    by (try assumption; intros ?; apply lang_numbered_break; assumption).
  rewrite (@re_sub_needs_break re_bullet)
    by (try assumption; apply lang_bullet_break).
  rewrite (@re_sub_needs_break re_sentence)
    by (try assumption; apply lang_sentence_break).
  rewrite (@re_sub_needs_break re_newlines)
    by (try assumption; apply lang_newlines_break).
  apply single_sub. eapply breaks_single_blank; eauto.
Qed.

Lemma format_response_clean x :
  x <> [] ->
  no_markers x = true ->
  normalized x = true ->
  (forall s1 s2, x = s1 ++ s2 -> match_at re_heading_glued s2 = None) ->
  format_response is_decimal (Some x) = heading_rule x
  /\ format_response is_decimal (Some (heading_rule x)) = heading_rule x.
Proof.
  intros Hne Hm Hn Hg. destruct x as [| c x]; [contradiction |].
  cbn [normalized] in Hn. apply andb_true_iff in Hn.
  destruct Hn as [Hc Hx]. apply negb_true_iff in Hc.
  destruct (restructure_clean Hx Hg) as [Hr Hb].
  assert (Hlast : is_space (last (c :: x) SP) = false)
    by (apply single_last; auto; discriminate).
  destruct (breaks_cons_inv Hb Hc) as (y' & E2 & Hb').
  assert (Hy : strip (c :: y') = c :: y').
  { apply strip_id; [exact Hc |]. rewrite (breaks_last Hb'). exact Hlast. }
  rewrite E2 in *.
  assert (Htail : forall z,
             collapse_spaces z = c :: x ->
             strip (restructure is_decimal (collapse_spaces z)) = c :: y').
  { intros z ->. rewrite Hr. exact Hy. }
  split; cbn [format_response].
  - rewrite (@strip_id (c :: x)) by first [exact Hc | exact Hlast].
    rewrite strip_markers_id by assumption.
    apply Htail. apply single_sub. exact Hx.
  - rewrite Hy, strip_markers_id.
    + apply Htail. apply breaks_collapse; assumption.
    + unfold no_markers in *.
      apply (breaks_forallb _ (br_keep c Hb')); [reflexivity | exact Hm].
Qed.
End Clean.

(** C5, with the condition the code needs: on text without markdown
    markers, with normalized whitespace, and in which no all-caps heading
    has text right after its colon (the colon is followed by a space or
    ends the text), formatting twice gives what formatting once gives. *)
Theorem format_response_idempotent (is_decimal : char -> bool) (x : str) :
  is_decimal SP = false ->
  no_markers x = true ->
  normalized x = true ->
  re_search re_heading_glued x = false ->
  format_response is_decimal (Some (format_response is_decimal (Some x))) =
  format_response is_decimal (Some x).
Proof.
  intros Hd Hm Hn Hg. destruct x as [| c x]; [reflexivity |].
  assert (Hne : c :: x <> []) by discriminate.
  destruct (@format_response_clean is_decimal Hd (c :: x) Hne Hm Hn
              (@re_search_none _ _ Hg)) as [H1 H2].
  exact (eq_trans
           (f_equal (fun z => format_response is_decimal (Some z)) H1)
           (eq_trans H2 (eq_sym H1))).
Qed.

Lemma format_response_idempotent_witness :
  ascii_decimal SP = false
  /\ no_markers (lit "NOTE: see the list. DONE") = true
  /\ normalized (lit "NOTE: see the list. DONE") = true
  /\ re_search re_heading_glued (lit "NOTE: see the list. DONE") = false
  /\ format_response ascii_decimal
       (Some (format_response ascii_decimal
                (Some (lit "NOTE: see the list. DONE")))) =
     format_response ascii_decimal (Some (lit "NOTE: see the list. DONE")).
Proof.
  split; [reflexivity |]. split; [reflexivity |]. split; [reflexivity |].
  split; [reflexivity |].
  apply format_response_idempotent; reflexivity.
Defined.

(** C5 as stated fails: [AB:c] has no marker and no whitespace at all,
    yet formatting it twice puts a space after the line break. *)
Lemma format_response_not_idempotent :
  no_markers (lit "AB:c") = true
  /\ normalized (lit "AB:c") = true
  /\ format_response ascii_decimal (Some (lit "AB:c")) =
     lit "AB:" ++ [NL] ++ lit "c"
  /\ format_response ascii_decimal
       (Some (format_response ascii_decimal (Some (lit "AB:c")))) =
     lit "AB:" ++ [NL] ++ lit " c"
  /\ format_response ascii_decimal
       (Some (format_response ascii_decimal (Some (lit "AB:c")))) <>
     format_response ascii_decimal (Some (lit "AB:c")).
Proof.
  repeat split; try reflexivity. vm_compute. discriminate.
Qed.

(** * The fallback of the formatter (lines 57-58) *)

(** C1: the fallback answers empty and absent input, but input made of
    whitespace or of markdown markers only passes the test of line 57
    and is emptied by the cleanup: the result is the empty string. *)
Theorem format_response_empty_result :
  format_response ascii_decimal None = fallback
  /\ format_response ascii_decimal (Some []) = fallback
  /\ format_response ascii_decimal (Some (lit " ")) = []
  /\ format_response ascii_decimal (Some (lit "***")) = [].
Proof.
  repeat split; reflexivity.
Qed.

(** * The context builder *)

Lemma str_eqb_eq a : forall b, str_eqb a b = true <-> a = b.
Proof.
  induction a as [| x a IH]; intros [| y b]; simpl; split; try easy.
  - intros H. apply andb_true_iff in H. destruct H as [Hx Hab].
    apply N.eqb_eq in Hx. apply IH in Hab. congruence.
  - intros [= -> ->]. rewrite N.eqb_refl. apply IH. reflexivity.
Qed.

Lemma last10_map (A B : Type) (f : A -> B) l :
  last10 (map f l) = map f (last10 l).
Proof.
  unfold last10. rewrite length_map. apply skipn_map.
Qed.

Lemma last10_length (A : Type) (l : list A) :
  length (last10 l) = Nat.min (length l) 10.
Proof.
  unfold last10. rewrite length_skipn. lia.
Qed.

Lemma last10_app (A : Type) (older recent : list A) :
  length recent = 10 -> last10 (older ++ recent) = recent.
Proof.
  intros H. unfold last10. rewrite length_app, H, Nat.add_sub.
  rewrite skipn_app, Nat.sub_diag, skipn_all. reflexivity.
Qed.

Lemma join_lines (ls : list str) :
  ls <> [] -> concat (map (fun l => l ++ [NL]) ls) = join [NL] ls ++ [NL].
Proof.
  induction ls as [| l ls IH]; [contradiction |]. intros _.
  destruct ls as [| l' ls].
  - simpl. rewrite app_nil_r. reflexivity.
  - change (join [NL] (l :: l' :: ls)) with (l ++ [NL] ++ join [NL] (l' :: ls)).
    cbn [map concat] in *. rewrite IH by discriminate.
    rewrite <- !app_assoc. reflexivity.
Qed.

Section ContextFacts.
Variable py_str : pyval -> str.
Variable bad_type : pyval -> exn.

(** One pass of the loop body appends the turn as the specification
    renders it, and a newline. *)
Lemma turn_line (m : dict) :
  (if is_user (get m (lit "role") PNone) then lit "User" else lit "Assistant")
    ++ lit ": " ++ fmt py_str (get m (lit "content") (PStr [])) ++ [NL] =
  spec_turn py_str m ++ [NL].
Proof.
  unfold spec_turn, spec_role, spec_content, get, is_user.
  destruct (dict_get m (lit "role")) as [[] |];
    destruct (dict_get m (lit "content"));
    rewrite <- ?app_assoc; reflexivity.
Qed.

Lemma context_loop_dicts (l : list dict) :
  forall context,
    context_loop py_str bad_type (map PDict l) context =
    Ok (context ++ concat (map (fun m => spec_turn py_str m ++ [NL]) l)).
Proof.
  induction l as [| m l IH]; intros context; cbn [map context_loop concat].
  - rewrite app_nil_r. reflexivity.
  - rewrite IH, turn_line, <- app_assoc. reflexivity.
Qed.

Lemma build_context_dicts (history : list dict) :
  history <> [] ->
  build_conversation_context py_str bad_type (PList (map PDict history)) =
  Ok (context_header
        ++ concat (map (fun m => spec_turn py_str m ++ [NL]) (last10 history))
        ++ [NL]).
Proof.
  intros Hne. unfold build_conversation_context.
  destruct history as [| m history]; [contradiction |].
  cbn [map truthy negb]. change (PDict m :: map PDict history)
    with (map PDict (m :: history)).
  rewrite last10_map, context_loop_dicts, <- app_assoc. reflexivity.
Qed.
End ContextFacts.

(** C3, as the code has it: each of the last ten turns is followed by a
    newline and one more newline closes the block, so the turns joined
    with newlines are followed by two newlines, not one. *)
Theorem build_conversation_context_turns
        (py_str : pyval -> str) (bad_type : pyval -> exn)
        (history : list dict) :
  history <> [] ->
  build_conversation_context py_str bad_type (PList (map PDict history)) =
  Ok (context_header
        ++ join [NL] (map (spec_turn py_str) (last10 history))
        ++ [NL; NL]).
Proof.
  intros Hne. rewrite build_context_dicts by assumption.
  rewrite <- (map_map (spec_turn py_str) (fun l => l ++ [NL])).
  rewrite join_lines.
  - rewrite <- !app_assoc. reflexivity.
  - intros E. apply (f_equal (@length str)) in E.
    rewrite length_map, last10_length in E.
    destruct history; [contradiction | simpl in E; lia].
Qed.

Lemma build_conversation_context_turns_witness :
  [[(lit "role", PStr (lit "user")); (lit "content", PStr (lit "hi"))];
   [(lit "role", PStr (lit "assistant"))]] <> []
  /\ build_conversation_context py_str_stub bad_type_stub
       (PList (map PDict
                 [[(lit "role", PStr (lit "user"));
                   (lit "content", PStr (lit "hi"))];
                  [(lit "role", PStr (lit "assistant"))]])) =
     Ok (context_header
           ++ join [NL]
                (map (spec_turn py_str_stub)
                   (last10
                      [[(lit "role", PStr (lit "user"));
                        (lit "content", PStr (lit "hi"))];
                       [(lit "role", PStr (lit "assistant"))]]))
           ++ [NL; NL]).
Proof.
  split; [discriminate |].
  apply build_conversation_context_turns. discriminate.
Defined.

(** C3 as stated fails: for the single turn of a user saying [hi] the
    block ends with two newlines, where the specification's joining and
    trailing newline give one. *)
Lemma build_conversation_context_not_joined :
  build_conversation_context py_str_stub bad_type_stub
    (PList [PDict [(lit "role", PStr (lit "user"));
                   (lit "content", PStr (lit "hi"))]]) =
  Ok (context_header ++ lit "User: hi" ++ [NL; NL])
  /\ spec_context py_str_stub
       [[(lit "role", PStr (lit "user")); (lit "content", PStr (lit "hi"))]] =
     context_header ++ lit "User: hi" ++ [NL]
  /\ build_conversation_context py_str_stub bad_type_stub
       (PList [PDict [(lit "role", PStr (lit "user"));
                      (lit "content", PStr (lit "hi"))]]) <>
     Ok (spec_context py_str_stub
           [[(lit "role", PStr (lit "user"));
             (lit "content", PStr (lit "hi"))]]).
Proof.
  split; [reflexivity |]. split; [reflexivity |].
  vm_compute. discriminate.
Qed.

(** C4: of a history that ends with ten turns the context holds these
    ten turns, each on its line, in their order, and nothing else:
    whatever stands before them, one entry or a thousand, turns or not,
    leaves no trace in the context. *)
Theorem build_conversation_context_window
        (py_str : pyval -> str) (bad_type : pyval -> exn)
        (older : list pyval) (recent : list dict) :
  length recent = 10 ->
  build_conversation_context py_str bad_type
    (PList (older ++ map PDict recent)) =
  Ok (context_header
        ++ concat (map (fun turn => spec_turn py_str turn ++ [NL]) recent)
        ++ [NL]).
Proof.
  intros Hlen. unfold build_conversation_context.
  assert (Htrue : truthy (PList (older ++ map PDict recent)) = true).
  { destruct older; [| reflexivity].
    destruct recent; [discriminate Hlen | reflexivity]. }
  rewrite Htrue. cbn [negb].
  rewrite last10_app by (rewrite length_map; exact Hlen).
  rewrite context_loop_dicts, <- app_assoc. reflexivity.
Qed.

Lemma build_conversation_context_window_witness :
  length last_ten_turns = 10
  /\ firstn 2 twelve_turns ++ map PDict last_ten_turns = twelve_turns
  /\ build_conversation_context py_str_stub bad_type_stub
       (PList (firstn 2 twelve_turns ++ map PDict last_ten_turns)) =
     Ok (context_header
           ++ concat (map (fun turn => spec_turn py_str_stub turn ++ [NL])
                          last_ten_turns)
           ++ [NL])
  /\ concat (map (fun turn => spec_turn py_str_stub turn ++ [NL])
                 last_ten_turns) =
     lit "User: c" ++ [NL] ++ lit "User: d" ++ [NL] ++ lit "User: e" ++ [NL]
     ++ lit "User: f" ++ [NL] ++ lit "User: g" ++ [NL] ++ lit "User: h"
     ++ [NL] ++ lit "User: i" ++ [NL] ++ lit "User: j" ++ [NL]
     ++ lit "User: k" ++ [NL] ++ lit "User: l" ++ [NL].
Proof.
  split; [reflexivity |]. split; [reflexivity |].
  split; [| reflexivity].
  exact (@build_conversation_context_window py_str_stub bad_type_stub
           (firstn 2 twelve_turns) last_ten_turns eq_refl).
Defined.

(** * The handlers *)

Lemma startswith_spec p : forall s, startswith p s = true <-> has_prefix p s.
Proof.
  unfold has_prefix. induction p as [| a p IH]; intros s; simpl.
  - split; [exists s; reflexivity | reflexivity].
  - destruct s as [| c s]; split.
    + discriminate.
    + intros [t E]. discriminate.
    + intros H. apply andb_true_iff in H. destruct H as [Hc Hs].
      apply N.eqb_eq in Hc. apply IH in Hs. destruct Hs as [t ->].
      exists t. congruence.
    + intros [t E]. injection E as -> ->. rewrite N.eqb_refl.
      apply IH. exists t. reflexivity.
Qed.

Lemma endswith_spec e s : endswith e s = true <-> has_suffix e s.
Proof.
  unfold endswith, has_suffix. rewrite startswith_spec.
  split; intros [t E]; exists (rev t).
  - apply (f_equal (@rev char)) in E.
    rewrite rev_involutive, rev_app_distr, rev_involutive in E. exact E.
  - rewrite E, rev_app_distr. reflexivity.
Qed.

Lemma endswith_any_spec l s :
  endswith_any l s = true <-> exists e, In e l /\ has_suffix e s.
Proof.
  unfold endswith_any. rewrite existsb_exists.
  split; intros (e & He & H); exists e; split; auto; apply endswith_spec; auto.
Qed.

Lemma form_get_filter k0 k default :
  forall f,
    form_get
      (filter (fun kv : str * str => negb (str_eqb (fst kv) k0)) f) k default =
    if str_eqb k0 k then default else form_get f k default.
Proof.
  induction f as [| [k' v] f IH]; cbn [filter form_get fst].
  - destruct (str_eqb k0 k); reflexivity.
  - destruct (str_eqb k' k0) eqn:E0; cbn [negb form_get].
    + apply str_eqb_eq in E0. subst k'. rewrite IH.
      destruct (str_eqb k0 k); reflexivity.
    + rewrite IH. destruct (str_eqb k0 k) eqn:E; [| reflexivity].
      apply str_eqb_eq in E. subst k. rewrite E0. reflexivity.
Qed.

Section ServerFacts.
Variable is_decimal : char -> bool.
Variable py_str : pyval -> str.
Variable bad_type : pyval -> exn.
Variable model : option (payload -> outcome str).
Variable json_loads : str -> outcome pyval.
Variable token : str.
Variable writable : str -> bool.
Variable decode_utf8 : bytes -> outcome str.
Variable b64encode : bytes -> str.

Let upload_handler : request -> M reply :=
  handle_file_upload is_decimal py_str bad_type model json_loads token
                     writable decode_utf8 b64encode.

Let chat_handler : request -> world -> reply * world :=
  chat is_decimal py_str bad_type model json_loads token writable
       decode_utf8 b64encode.

(** C6: the dispatch of lines 179-184.  An [image/] mime type goes to
    the image processing; otherwise a [text/] mime type or a file name
    ending in one of the eight extensions goes to the text processing;
    otherwise the answer is the fixed message naming the mime type, and
    the world, with the calls made to the model, is left as it was. *)
Theorem analyse_dispatch (file_path : str) (f : upload)
        (message context : str) :
  (has_prefix (lit "image/") (mimetype f) ->
   analyse is_decimal model decode_utf8 b64encode file_path f message context =
   process_image_file is_decimal model b64encode file_path (mimetype f)
                      message context)
  /\ (~ has_prefix (lit "image/") (mimetype f) ->
      has_prefix (lit "text/") (mimetype f)
      \/ (exists e, In e TEXT_EXTENSIONS /\ has_suffix e (filename f)) ->
      analyse is_decimal model decode_utf8 b64encode file_path f message context =
      process_text_file is_decimal model decode_utf8 file_path (filename f)
                        message context)
  /\ (~ has_prefix (lit "image/") (mimetype f) ->
      ~ has_prefix (lit "text/") (mimetype f) ->
      (forall e, In e TEXT_EXTENSIONS -> ~ has_suffix e (filename f)) ->
      forall w,
        analyse is_decimal model decode_utf8 b64encode file_path f message
                context w =
        (Ok (lit "Sorry, I don't support files of type '" ++ mimetype f
             ++ lit "'. I can analyze images and text files."), w)).
Proof.
  unfold analyse.
  destruct (startswith (lit "image/") (mimetype f)) eqn:Himg;
    [apply startswith_spec in Himg
    | assert (~ has_prefix (lit "image/") (mimetype f))
        by (rewrite <- startswith_spec; congruence)].
  - (split; [| split]); intros; [reflexivity | contradiction | contradiction].
  - destruct (startswith (lit "text/") (mimetype f)) eqn:Htxt;
      [apply startswith_spec in Htxt
      | assert (~ has_prefix (lit "text/") (mimetype f))
          by (rewrite <- startswith_spec; congruence)].
    + (split; [| split]); intros; [contradiction | reflexivity | contradiction].
    + destruct (endswith_any TEXT_EXTENSIONS (filename f)) eqn:Hext.
      * apply endswith_any_spec in Hext. destruct Hext as (e & He & Hs).
        split; [intros; contradiction | split; [intros; reflexivity |]].
        intros _ _ Hall. exfalso. exact (Hall e He Hs).
      * assert (Hno : ~ exists e,
                   In e TEXT_EXTENSIONS /\ has_suffix e (filename f))
          by (rewrite <- endswith_any_spec; congruence).
        (split; [| split]); intros; [contradiction | | reflexivity].
        simpl. tauto.
Qed.

(** C9: in the JSON handler a [message] that is missing, or bound to a
    false value (the empty string, [0], [false], [null], an empty list or
    object), is answered with status 400 and [No message provided]; the
    model is not called. *)
Theorem chat_rejects_falsy_message (req : request) (d : dict) (w : world) :
  file req = None ->
  json req = Ok (PDict d) ->
  dict_get d (lit "message") = None
  \/ (exists v, dict_get d (lit "message") = Some v /\ truthy v = false) ->
  chat_handler req w =
  ({| status := 400; body := [(lit "error", lit "No message provided")] |}, w).
Proof.
  intros Hfile Hjson Hmsg.
  assert (Hfalsy : truthy (get d (lit "message") PNone) = false).
  { unfold get. destruct Hmsg as [-> | (v & -> & Hv)]; auto. }
  unfold chat_handler, chat, chat_body. rewrite Hfile, Hjson.
  destruct d as [| kv d]; [reflexivity |].
  cbn [truthy negb]. rewrite Hfalsy. reflexivity.
Qed.

(** C10, amended: an upload of an unsupported type, with a file name, a
    save that succeeds and a history the context builder accepts: the
    file is on the disk under [static/uploads/<token>_<name>] and the
    reply has status 200 with the message, the URL, the name and the type
    of the file; the model is not called. *)
Theorem unsupported_upload_is_saved (req : request) (f : upload) (w : world)
        (history : pyval) (context : str) :
  file req = Some f ->
  nonempty (filename f) = true ->
  writable (lit "static/uploads/" ++ token ++ lit "_" ++ filename f) = true ->
  match json_loads
          (form_get (form req) (lit "conversation_history") (lit "[]")) with
  | Ok v => v
  | Raise _ => PList []
  end = history ->
  build_conversation_context py_str bad_type history = Ok context ->
  startswith (lit "image/") (mimetype f) = false ->
  startswith (lit "text/") (mimetype f) = false ->
  endswith_any TEXT_EXTENSIONS (filename f) = false ->
  chat_handler req w =
  ({| status := 200;
      body := [(lit "response",
                lit "Sorry, I don't support files of type '" ++ mimetype f
                ++ lit "'. I can analyze images and text files.");
               (lit "file_url",
                lit "/static/uploads/" ++ token ++ lit "_" ++ filename f);
               (lit "file_name", filename f);
               (lit "file_type", mimetype f)] |},
   {| disk := write_file
                (lit "static/uploads/" ++ token ++ lit "_" ++ filename f)
                (data f) (disk w);
      asked := asked w |}).
Proof.
  intros Hfile Hname Hw Hhist Hctx Himg Htxt Hext.
  unfold chat_handler, chat, chat_body. rewrite Hfile.
  unfold handle_file_upload. rewrite Hfile, Hname, Hhist, Hctx. cbn [negb].
  unfold bind, catch, save, ret, analyse.
  change (UPLOAD_FOLDER ++ lit "/" ++ token ++ lit "_" ++ filename f)
    with (lit "static/uploads/" ++ token ++ lit "_" ++ filename f).
  rewrite Hw, Himg, Htxt, Hext. reflexivity.
Qed.

End ServerFacts.

Lemma analyse_dispatch_witness :
  (has_prefix (lit "image/") (mimetype png_upload)
   /\ analyse ascii_decimal model_stub decode_stub b64_stub
        (lit "static/uploads/t_photo.png") png_upload [] [] =
      process_image_file ascii_decimal model_stub b64_stub
        (lit "static/uploads/t_photo.png") (mimetype png_upload) [] [])
  /\ (~ has_prefix (lit "image/") (mimetype csv_upload)
      /\ (exists e, In e TEXT_EXTENSIONS /\ has_suffix e (filename csv_upload))
      /\ analyse ascii_decimal model_stub decode_stub b64_stub
           (lit "static/uploads/t_data.csv") csv_upload [] [] =
         process_text_file ascii_decimal model_stub decode_stub
           (lit "static/uploads/t_data.csv") (filename csv_upload) [] [])
  /\ (~ has_prefix (lit "image/") (mimetype pdf_upload)
      /\ ~ has_prefix (lit "text/") (mimetype pdf_upload)
      /\ (forall e, In e TEXT_EXTENSIONS -> ~ has_suffix e (filename pdf_upload))
      /\ analyse ascii_decimal model_stub decode_stub b64_stub
           (lit "static/uploads/t_paper.pdf") pdf_upload [] [] empty_world =
         (Ok (lit "Sorry, I don't support files of type 'application/pdf'. "
              ++ lit "I can analyze images and text files."),
          empty_world)).
Proof.
  assert (Hpng : has_prefix (lit "image/") (mimetype png_upload))
    by (exists (lit "png"); reflexivity).
  assert (Hcsv : ~ has_prefix (lit "image/") (mimetype csv_upload))
    by (rewrite <- startswith_spec; vm_compute; discriminate).
  assert (Hext : exists e,
             In e TEXT_EXTENSIONS /\ has_suffix e (filename csv_upload)).
  { exists (lit ".csv").
    split; [simpl; tauto | exists (lit "data"); reflexivity]. }
  assert (Hpdf1 : ~ has_prefix (lit "image/") (mimetype pdf_upload))
    by (rewrite <- startswith_spec; vm_compute; discriminate).
  assert (Hpdf2 : ~ has_prefix (lit "text/") (mimetype pdf_upload))
    by (rewrite <- startswith_spec; vm_compute; discriminate).
  assert (Hpdf3 : forall e,
             In e TEXT_EXTENSIONS -> ~ has_suffix e (filename pdf_upload)).
  { intros e He Hs.
    assert (Hany : endswith_any TEXT_EXTENSIONS (filename pdf_upload) = true)
      by (apply endswith_any_spec; eauto).
    vm_compute in Hany. discriminate. }
  split; [split; [exact Hpng |] |].
  2: split; [split; [exact Hcsv | split; [exact Hext |]] |].
  3: split; [exact Hpdf1 | split; [exact Hpdf2 | split; [exact Hpdf3 |]]].
  - exact (proj1 (analyse_dispatch ascii_decimal model_stub decode_stub b64_stub
                    (lit "static/uploads/t_photo.png") png_upload [] []) Hpng).
  - exact (proj1 (proj2 (analyse_dispatch ascii_decimal model_stub decode_stub
                           b64_stub (lit "static/uploads/t_data.csv")
                           csv_upload [] []))
             Hcsv (or_intror Hext)).
  - exact (proj2 (proj2 (analyse_dispatch ascii_decimal model_stub decode_stub
                           b64_stub (lit "static/uploads/t_paper.pdf")
                           pdf_upload [] []))
             Hpdf1 Hpdf2 Hpdf3 empty_world).
Defined.

Lemma chat_rejects_falsy_message_witness :
  file (json_request (PDict [(lit "message", PStr [])])) = None
  /\ json (json_request (PDict [(lit "message", PStr [])])) =
     Ok (PDict [(lit "message", PStr [])])
  /\ (exists v, dict_get [(lit "message", PStr [])] (lit "message") = Some v
                /\ truthy v = false)
  /\ chat_stub (json_request (PDict [(lit "message", PStr [])])) empty_world =
     ({| status := 400; body := [(lit "error", lit "No message provided")] |},
      empty_world).
Proof.
  assert (H : exists v,
             dict_get [(lit "message", PStr [])] (lit "message") = Some v
             /\ truthy v = false)
    by (exists (PStr []); split; reflexivity).
  split; [reflexivity |]. split; [reflexivity |]. split; [exact H |].
  unfold chat_stub.
  eapply chat_rejects_falsy_message;
    [reflexivity | reflexivity | right; exact H].
Defined.

Lemma unsupported_upload_is_saved_witness :
  chat_stub (upload_request pdf_upload (lit "[]")) empty_world =
  ({| status := 200;
      body := [(lit "response",
                lit "Sorry, I don't support files of type '" ++ lit "application/pdf"
                ++ lit "'. I can analyze images and text files.");
               (lit "file_url",
                lit "/static/uploads/" ++ lit "0123456789abcdef" ++ lit "_"
                ++ lit "paper.pdf");
               (lit "file_name", lit "paper.pdf");
               (lit "file_type", lit "application/pdf")] |},
   {| disk := [(lit "static/uploads/" ++ lit "0123456789abcdef" ++ lit "_"
                ++ lit "paper.pdf", [])];
      asked := [] |}).
Proof.
  unfold chat_stub.
  apply (@unsupported_upload_is_saved
           ascii_decimal py_str_stub bad_type_stub model_stub json_loads_stub
           (lit "0123456789abcdef") (fun _ => true) decode_stub b64_stub
           (upload_request pdf_upload (lit "[]")) pdf_upload empty_world
           (PList []) []);
    reflexivity.
Defined.

(** C10 as stated fails: [paper.pdf] of type [application/pdf] is an
    unsupported upload, and the reply is not a 200.  With the history
    field [7] the file is saved and the reply is a 500; when the file
    cannot be written the reply is a 500 and nothing is saved; without a
    file name the reply is a 400 and nothing is saved. *)
Lemma unsupported_upload_not_200 :
  chat ascii_decimal py_str_stub bad_type_stub model_stub json_loads_seven
       (lit "0123456789abcdef") (fun _ => true) decode_stub b64_stub
       (upload_request pdf_upload (lit "7")) empty_world =
  ({| status := 500;
      body := [(lit "error", lit "An error occurred: TypeError")] |},
   {| disk := [(lit "static/uploads/0123456789abcdef_paper.pdf", [])];
      asked := [] |})
  /\ chat ascii_decimal py_str_stub bad_type_stub model_stub json_loads_stub
          (lit "0123456789abcdef") (fun _ => false) decode_stub b64_stub
          (upload_request pdf_upload (lit "[]")) empty_world =
     ({| status := 500; body := [(lit "error", lit "Failed to save file")] |},
      empty_world)
  /\ chat_stub (upload_request nameless_upload (lit "[]")) empty_world =
     ({| status := 400; body := [(lit "error", lit "No file selected")] |},
      empty_world).
Proof.
  split; [reflexivity |]. split; reflexivity.
Qed.

(** * More on the formatter

    What the chain of rewrites keeps and what it removes. *)

(** A group captures part of the matched text. *)
Lemma denote_groups (Q : char -> Prop) r :
  forall w g g',
    denote r w g g' -> Forall Q w ->
    (forall i, Forall Q (g i)) -> forall i, Forall Q (g' i).
Proof.
  induction r as [p | p lo | r1 IH1 r2 IH2 | j r1 IH1]; simpl;
    intros w g g' H Hw Hg i.
  - destruct H as [_ ->]. apply Hg.
  - destruct H as [_ ->]. apply Hg.
  - destruct H as (w1 & w2 & g1 & -> & H1 & H2).
    apply Forall_app in Hw. destruct Hw as [Hw1 Hw2]. eauto.
  - destruct H as (g1 & H1 & ->). unfold set_group.
    destruct (Nat.eqb i j); eauto.
Qed.

Lemma expand_Forall (Q : char -> Prop) t g :
  (forall i, Forall Q (g i)) ->
  (forall w, In (Txt w) t -> Forall Q w) ->
  Forall Q (expand t g).
Proof.
  intros Hg. unfold expand. induction t as [| x t IH]; simpl; intros Ht.
  - constructor.
  - apply Forall_app. split; [| apply IH; intros w Hw; apply Ht; auto].
    destruct x as [w | i]; [apply Ht; auto | apply Hg].
Qed.

(** [re.sub] writes characters of the text and of the template only. *)
Lemma re_sub_Forall (Q : char -> Prop) r t s :
  nullable r = false ->
  (forall w, In (Txt w) t -> Forall Q w) ->
  Forall Q s -> Forall Q (re_sub r t s).
Proof.
  intros Hn Ht. pose proof (@re_sub_rewrites r t Hn s) as H.
  induction H as [| c s out Hm H IH | w s g out Hw Hm Hd H IH]; intros Hs.
  - constructor.
  - inversion Hs; subst. constructor; auto.
  - apply Forall_app in Hs. destruct Hs as [Hsw Hss].
    apply Forall_app. split; [| auto].
    apply expand_Forall; [| exact Ht].
    apply (@denote_groups Q r w no_groups g Hd Hsw). intros i. constructor.
Qed.

(** What a repetition pattern removes leaves no character of its class. *)
Lemma re_sub_rep_removes p s :
  Forall (fun c => p c = false) (re_sub (Rep p 1) [] s).
Proof.
  eapply rewrites_Forall.
  - apply re_sub_rewrites. reflexivity.
  - intros c s' _ H. eapply match_at_rep_none; eauto.
  - intros w g _. constructor.
Qed.

Lemma strip_markers_clean s :
  Forall (fun c => is_star c = false /\ is_marker c = false) (strip_markers s).
Proof.
  unfold strip_markers. apply Forall_and.
  - apply re_sub_Forall; [reflexivity | intros w [] |].
    apply re_sub_rep_removes.
  - apply re_sub_rep_removes.
Qed.

Lemma strip_markers_Forall (Q : char -> Prop) s :
  Forall Q s -> Forall Q (strip_markers s).
Proof.
  intros H. unfold strip_markers.
  do 2 (apply re_sub_Forall; [reflexivity | intros w [] |]). exact H.
Qed.

Ltac template_ok :=
  let w := fresh "w" in
  let H := fresh "Hpiece" in
  intros w H; simpl in H; decompose [or] H; clear H;
  try contradiction;
  match goal with
  | E : Ref _ = Txt _ |- _ => discriminate E
  | E : Txt _ = Txt _ |- _ => injection E as <-
  end;
  repeat constructor; assumption.

Section Kept.
Variable is_decimal : char -> bool.
Variable Q : char -> Prop.
Hypothesis Q_space : Q SP.
Hypothesis Q_newline : Q NL.

Lemma restructure_Forall s : Forall Q s -> Forall Q (restructure is_decimal s).
Proof.
  intros H. unfold restructure, collapse_newlines.
  repeat (apply re_sub_Forall; [reflexivity | template_ok |]). exact H.
Qed.

(** The steps after the fallback test keep a property of the characters
    that the space and the newline have. *)
Lemma format_response_Forall c text :
  Forall Q (c :: text) -> Forall Q (format_response is_decimal (Some (c :: text))).
Proof.
  intros H. cbn [format_response].
  apply strip_Forall, restructure_Forall.
  unfold collapse_spaces. apply re_sub_Forall; [reflexivity | template_ok |].
  apply strip_markers_Forall, strip_Forall, H.
Qed.
End Kept.

(** Every character of the formatted response is a character of the
    input, a space or a newline: nothing else is ever written. *)
Theorem format_response_writes_nothing_new
        (is_decimal : char -> bool) (text : str) (c : char) :
  text <> [] ->
  In c (format_response is_decimal (Some text)) ->
  In c text \/ c = SP \/ c = NL.
Proof.
  intros Hne Hin. destruct text as [| c0 text]; [contradiction |].
  assert (H : Forall (fun x => In x (c0 :: text) \/ x = SP \/ x = NL)
                     (format_response is_decimal (Some (c0 :: text)))).
  { apply (@format_response_Forall is_decimal
             (fun x => In x (c0 :: text) \/ x = SP \/ x = NL)).
    - right. left. reflexivity.
    - right. right. reflexivity.
    - apply Forall_forall. intros x Hx. left. exact Hx. }
  rewrite Forall_forall in H. apply H, Hin.
Qed.

Lemma In_eqb (c : char) (l : str) : existsb (N.eqb c) l = true -> In c l.
Proof.
  intros H. apply existsb_exists in H. destruct H as (x & Hx & E).
  apply N.eqb_eq in E. subst x. exact Hx.
Qed.

Lemma format_response_writes_nothing_new_witness :
  lit "**Hi**  there" <> []
  /\ In (chr "t") (format_response ascii_decimal (Some (lit "**Hi**  there")))
  /\ (In (chr "t") (lit "**Hi**  there") \/ chr "t" = SP \/ chr "t" = NL).
Proof.
  assert (Hin : In (chr "t")
                  (format_response ascii_decimal (Some (lit "**Hi**  there"))))
    by (apply In_eqb; vm_compute; reflexivity).
  split; [discriminate |]. split; [exact Hin |].
  apply (@format_response_writes_nothing_new ascii_decimal
           (lit "**Hi**  there") (chr "t")); [discriminate | exact Hin].
Defined.

(** The formatted response holds none of the markdown markers
    [*], [_], [~] and the backquote, whatever the input. *)
Theorem format_response_no_markers
        (is_decimal : char -> bool) (text : option str) (c : char) :
  In c (format_response is_decimal text) ->
  is_star c = false /\ is_marker c = false.
Proof.
  intros Hin.
  set (Q := fun c => is_star c = false /\ is_marker c = false).
  assert (HSP : Q SP) by (split; reflexivity).
  assert (HNL : Q NL) by (split; reflexivity).
  assert (Hfb : Forall Q fallback).
  { apply Forall_forall. intros x Hx.
    apply (forallb_forall (fun c => negb (is_star c || is_marker c)) fallback)
      in Hx; [| reflexivity].
    apply negb_true_iff, orb_false_iff in Hx. exact Hx. }
  assert (Hall : Forall Q (format_response is_decimal text)).
  { destruct text as [[| c0 text] |]; try exact Hfb.
    cbn [format_response].
    apply strip_Forall, (@restructure_Forall is_decimal Q HSP HNL).
    unfold collapse_spaces.
    apply re_sub_Forall; [reflexivity | template_ok |].
    apply strip_markers_clean. }
  rewrite Forall_forall in Hall. apply (Hall c Hin).
Qed.

Lemma format_response_no_markers_witness :
  In (chr "H") (format_response ascii_decimal (Some (lit "**_Hi_** `x`")))
  /\ is_star (chr "H") = false /\ is_marker (chr "H") = false.
Proof.
  assert (Hin : In (chr "H")
                   (format_response ascii_decimal
                      (Some (lit "**_Hi_** `x`"))))
    by (apply In_eqb; vm_compute; reflexivity).
  split; [exact Hin |].
  exact (@format_response_no_markers ascii_decimal
           (Some (lit "**_Hi_** `x`")) (chr "H") Hin).
Defined.

(** ** Trimming *)

Lemma lstrip_split s :
  exists ws, s = ws ++ lstrip s /\ Forall (fun c => is_space c = true) ws.
Proof.
  induction s as [| c s IH]; simpl.
  - exists []. auto.
  - destruct (is_space c) eqn:Hc.
    + destruct IH as (ws & E & Hws). exists (c :: ws). split.
      * simpl. congruence.
      * constructor; assumption.
    + exists []. auto.
Qed.

Lemma lstrip_hd s c r : lstrip s = c :: r -> is_space c = false.
Proof.
  induction s as [| c0 s IH]; simpl; [discriminate |].
  destruct (is_space c0) eqn:Hc; [exact IH |].
  intros [= -> _]. exact Hc.
Qed.

Lemma rstrip_split s :
  exists ws, s = rstrip s ++ ws /\ Forall (fun c => is_space c = true) ws.
Proof.
  unfold rstrip. destruct (lstrip_split (rev s)) as (ws & E & Hws).
  exists (rev ws). split; [| apply Forall_rev, Hws].
  rewrite <- rev_app_distr, <- E, rev_involutive. reflexivity.
Qed.

Lemma rstrip_last s : rstrip s <> [] -> is_space (last (rstrip s) SP) = false.
Proof.
  unfold rstrip. destruct (lstrip (rev s)) as [| c r] eqn:E; [contradiction |].
  intros _. simpl. rewrite last_last. eapply lstrip_hd; eauto.
Qed.

(** What [strip] returns is empty, or begins and ends with characters
    that are not whitespace. *)
Lemma strip_trimmed s c rest :
  strip s = c :: rest ->
  is_space c = false /\ is_space (last (c :: rest) SP) = false.
Proof.
  unfold strip. intros E. split.
  - destruct (rstrip_split (lstrip s)) as (ws & E' & _).
    rewrite E in E'. simpl in E'. eapply lstrip_hd; eauto.
  - rewrite <- E. apply rstrip_last. rewrite E. discriminate.
Qed.

(** The formatted response never begins or ends with whitespace. *)
Theorem format_response_trimmed
        (is_decimal : char -> bool) (text : option str) (c : char) (rest : str) :
  format_response is_decimal text = c :: rest ->
  is_space c = false /\ is_space (last (c :: rest) SP) = false.
Proof.
  assert (Hfb : fallback = c :: rest ->
                is_space c = false /\ is_space (last (c :: rest) SP) = false).
  { intros E. rewrite <- E. injection E as <- _. split; reflexivity. }
  destruct text as [[| c0 text] |]; try exact Hfb.
  cbn [format_response]. apply strip_trimmed.
Qed.

Lemma format_response_trimmed_witness :
  format_response ascii_decimal (Some (lit "  ok. NEXT: one  ")) =
  chr "o" :: lit "k. NEXT:" ++ [NL] ++ lit " one"
  /\ is_space (chr "o") = false
  /\ is_space (last (chr "o" :: lit "k. NEXT:" ++ [NL] ++ lit " one") SP)
     = false.
Proof.
  assert (E : format_response ascii_decimal (Some (lit "  ok. NEXT: one  ")) =
              chr "o" :: lit "k. NEXT:" ++ [NL] ++ lit " one")
    by (vm_compute; reflexivity).
  split; [exact E |].
  exact (format_response_trimmed ascii_decimal _ E).
Defined.

(** ** Runs of spaces and of newlines *)

Lemma span_app_le p s1 s2 : span p s1 <= span p (s1 ++ s2).
Proof.
  induction s1 as [| c s1 IH]; simpl; [lia |]. destruct (p c); lia.
Qed.

Lemma span_repeat p c k s : p c = true -> span p (repeat c k ++ s) = k + span p s.
Proof.
  intros Hc. induction k as [| k IH]; simpl; [reflexivity |].
  rewrite Hc, IH. reflexivity.
Qed.

Lemma run_le_spec p n s :
  run_le p n s = true ->
  forall s1 s2, s = s1 ++ s2 -> span p s2 <= n.
Proof.
  induction s as [| c s IH]; intros H s1 s2 E.
  - symmetry in E. apply app_eq_nil in E. destruct E as [_ ->]. simpl. lia.
  - cbn [run_le] in H. apply andb_true_iff in H. destruct H as [H1 H2].
    destruct s1 as [| c1 s1]; simpl in E.
    + subst s2. apply Nat.leb_le, H1.
    + injection E as _ E. eauto.
Qed.

Lemma run_le_suffix p n s1 s2 :
  run_le p n (s1 ++ s2) = true -> run_le p n s2 = true.
Proof.
  induction s1 as [| c s1 IH]; simpl; auto.
  intros H. apply andb_true_iff in H. apply IH, H.
Qed.

Lemma run_le_prefix p n s1 s2 :
  run_le p n (s1 ++ s2) = true -> run_le p n s1 = true.
Proof.
  induction s1 as [| c s1 IH]; [reflexivity |].
  change ((c :: s1) ++ s2) with (c :: s1 ++ s2). cbn [run_le].
  intros H. apply andb_true_iff in H. destruct H as [H1 H2].
  rewrite (IH H2), andb_true_r. apply Nat.leb_le. apply Nat.leb_le in H1.
  pose proof (span_app_le p (c :: s1) s2). simpl in *. lia.
Qed.

Lemma strip_run_le p n s : run_le p n s = true -> run_le p n (strip s) = true.
Proof.
  intros H. unfold strip.
  destruct (lstrip_split s) as (ws & E & _).
  destruct (rstrip_split (lstrip s)) as (ws' & E' & _).
  rewrite E in H. apply run_le_suffix in H.
  rewrite E' in H. apply run_le_prefix in H. exact H.
Qed.

Section Runs.
Variable p : char -> bool.
Variable lo k : nat.
Variable c : char.
Hypothesis lo_pos : 0 < lo.
Hypothesis c_in_class : p c = true.

Let squeeze : str -> str := re_sub (Rep p lo) [Txt (repeat c k)].

Lemma squeeze_match s :
  lo <= span p s -> squeeze s = repeat c k ++ squeeze (skipn (span p s) s).
Proof.
  intros H. unfold squeeze. rewrite re_sub_rep_match by assumption.
  simpl. rewrite app_nil_r. reflexivity.
Qed.

(** A run shorter than the bound is kept. *)
Lemma squeeze_span_short s : span p s < lo -> span p (squeeze s) = span p s.
Proof.
  unfold squeeze. induction s as [| x s IH]; [reflexivity |]. intros H.
  rewrite re_sub_rep_keep by assumption.
  simpl in *. destruct (p x); [| reflexivity].
  rewrite IH by lia. reflexivity.
Qed.

Lemma span_skipn s : span p (skipn (span p s) s) = 0.
Proof.
  induction s as [| x s IH]; [reflexivity |].
  simpl. destruct (p x) eqn:Hx; simpl; [exact IH | now rewrite Hx].
Qed.

(** A run that reaches the bound becomes the [k] characters of the
    template. *)
Lemma squeeze_span_long s : lo <= span p s -> span p (squeeze s) = k.
Proof.
  intros H. rewrite squeeze_match by assumption.
  rewrite span_repeat by assumption.
  rewrite squeeze_span_short; rewrite span_skipn; lia.
Qed.

Lemma run_le_repeat n j s :
  j + span p s <= n -> run_le p n s = true ->
  run_le p n (repeat c j ++ s) = true.
Proof.
  induction j as [| j IH]; simpl; intros Hn Hs; [exact Hs |].
  rewrite c_in_class, span_repeat by assumption.
  rewrite IH by (assumption || lia).
  rewrite andb_true_r. apply Nat.leb_le. lia.
Qed.

Lemma squeeze_run_le n s :
  k <= n -> lo - 1 <= n -> run_le p n (squeeze s) = true.
Proof.
  intros Hk Hlo. remember (length s) as m eqn:Hm. revert s Hm.
  induction m as [m IH] using lt_wf_ind. intros s Hm.
  destruct s as [| x s]; [reflexivity |].
  destruct (Nat.le_gt_cases lo (span p (x :: s))) as [Hge | Hlt].
  - rewrite squeeze_match by assumption. apply run_le_repeat.
    + rewrite squeeze_span_short; rewrite span_skipn; lia.
    + eapply IH; [| reflexivity]. subst m. rewrite length_skipn.
      cbn [length]. lia.
  - assert (E : squeeze (x :: s) = x :: squeeze s)
      by (apply re_sub_rep_keep; assumption).
    pose proof (squeeze_span_short _ Hlt) as Hspan.
    rewrite E in *. cbn [run_le]. rewrite Hspan.
    apply andb_true_iff. split; [apply Nat.leb_le; lia |].
    eapply IH; [| reflexivity]. subst m. simpl. lia.
Qed.
End Runs.

(** A rewriting of the runs of one class by a single character leaves
    the runs of a disjoint class as they are. *)
Lemma rewrites_other_runs p q c n s out :
  (forall x, p x = true -> q x = false) -> q c = false ->
  rewrites (Rep p 1) [Txt [c]] s out ->
  run_le q n s = true ->
  span q out = span q s /\ run_le q n out = true.
Proof.
  intros Hpq Hc H.
  induction H as [| x s out Hm H IH | w s g out Hw Hm Hd H IH]; intros Hs.
  - auto.
  - cbn [run_le] in Hs. apply andb_true_iff in Hs. destruct Hs as [Hs1 Hs2].
    destruct (IH Hs2) as [E Hout].
    assert (Ex : span q (x :: out) = span q (x :: s))
      by (simpl; rewrite E; reflexivity).
    split; [exact Ex |]. cbn [run_le]. rewrite Ex, Hs1, Hout. reflexivity.
  - destruct w as [| x w]; [contradiction |].
    destruct Hd as [[Hall _] _]. simpl in Hall.
    apply andb_true_iff in Hall. destruct Hall as [Hx _].
    apply Hpq in Hx. apply run_le_suffix in Hs.
    destruct (IH Hs) as [_ Hout].
    simpl. rewrite Hc, Hx, Hout. split; reflexivity.
Qed.

Section Shape.
Variable is_decimal : char -> bool.

Lemma restructure_runs s :
  run_le is_blank 1 (restructure is_decimal s) = true
  /\ run_le is_nl 3 (restructure is_decimal s) = true.
Proof.
  unfold restructure.
  set (u := collapse_newlines _).
  split.
  - apply (@squeeze_run_le is_blank 1 1 SP); auto.
  - apply (@rewrites_other_runs is_blank is_nl SP 3 u).
    + intros x Hx. unfold is_blank in Hx. apply orb_true_iff in Hx.
      destruct Hx as [Hx | Hx]; apply is_char_eq in Hx; subst x; reflexivity.
    + reflexivity.
    + apply re_sub_rewrites. reflexivity.
    + apply (@squeeze_run_le is_nl 4 3 NL); auto.
Qed.

Lemma format_response_runs text :
  run_le is_blank 1 (format_response is_decimal text) = true
  /\ run_le is_nl 3 (format_response is_decimal text) = true.
Proof.
  destruct text as [[| c0 text] |]; try (split; reflexivity).
  cbn [format_response].
  split; apply strip_run_le, restructure_runs.
Qed.

Lemma format_response_spaces text :
  Forall (fun c => is_space c = true -> c = SP \/ c = NL)
         (format_response is_decimal text).
Proof.
  assert (Hfb : Forall (fun c => is_space c = true -> c = SP \/ c = NL)
                       fallback).
  { apply Forall_forall. intros x Hx Hs.
    apply (forallb_forall (fun c => negb (is_space c) || is_char SP c) fallback)
      in Hx; [| reflexivity].
    rewrite Hs in Hx. simpl in Hx. left. apply is_char_eq, Hx. }
  destruct text as [[| c0 text] |]; try exact Hfb.
  cbn [format_response].
  apply strip_Forall, restructure_Forall; auto.
  eapply Forall_impl; [| apply collapse_spaces_chars].
  intros x [Hx | ->]; [congruence | auto].
Qed.
End Shape.

(** Whitespace of the formatted response: its only whitespace characters
    are the space and the newline (no tab, no carriage return). *)
Theorem format_response_whitespace
        (is_decimal : char -> bool) (text : option str) (c : char) :
  In c (format_response is_decimal text) ->
  is_space c = true ->
  c = SP \/ c = NL.
Proof.
  pose proof (format_response_spaces is_decimal text) as H.
  rewrite Forall_forall in H. apply H.
Qed.

Lemma format_response_whitespace_witness :
  In SP (format_response ascii_decimal (Some (lit "a  b")))
  /\ is_space SP = true
  /\ (SP = SP \/ SP = NL).
Proof.
  assert (Hin : In SP (format_response ascii_decimal (Some (lit "a  b"))))
    by (apply In_eqb; vm_compute; reflexivity).
  split; [exact Hin |]. split; [reflexivity |].
  apply (@format_response_whitespace ascii_decimal (Some (lit "a  b")) SP);
    [exact Hin | reflexivity].
Defined.

(** No two spaces stand side by side in the formatted response: a run
    of [n] spaces in it has [n <= 1]. *)
Theorem format_response_space_runs
        (is_decimal : char -> bool) (text : option str) (s1 s2 : str)
        (n : nat) :
  format_response is_decimal text = s1 ++ repeat SP n ++ s2 ->
  n <= 1.
Proof.
  intros E.
  destruct (format_response_runs is_decimal text) as [H _].
  pose proof (@run_le_spec _ _ _ H s1 (repeat SP n ++ s2) E) as Hle.
  rewrite span_repeat in Hle by reflexivity. lia.
Qed.

Lemma format_response_space_runs_witness :
  format_response ascii_decimal (Some (lit "a   b")) =
  lit "a" ++ repeat SP 1 ++ lit "b"
  /\ 1 <= 1.
Proof.
  assert (E : format_response ascii_decimal (Some (lit "a   b")) =
              lit "a" ++ repeat SP 1 ++ lit "b") by reflexivity.
  split; [exact E |].
  exact (@format_response_space_runs ascii_decimal (Some (lit "a   b"))
           (lit "a") (lit "b") 1 E).
Defined.

(** The formatted response never holds four newlines in a row: a run of
    [n] newlines in it has [n <= 3]. *)
Theorem format_response_newline_runs
        (is_decimal : char -> bool) (text : option str) (s1 s2 : str)
        (n : nat) :
  format_response is_decimal text = s1 ++ repeat NL n ++ s2 ->
  n <= 3.
Proof.
  intros E.
  destruct (format_response_runs is_decimal text) as [_ H].
  pose proof (@run_le_spec _ _ _ H s1 (repeat NL n ++ s2) E) as Hle.
  rewrite span_repeat in Hle by reflexivity. lia.
Qed.

Lemma format_response_newline_runs_witness :
  format_response ascii_decimal (Some (lit "A*B:c")) =
  lit "AB:" ++ repeat NL 1 ++ lit "c"
  /\ 1 <= 3.
Proof.
  assert (E : format_response ascii_decimal (Some (lit "A*B:c")) =
              lit "AB:" ++ repeat NL 1 ++ lit "c") by reflexivity.
  split; [exact E |].
  exact (@format_response_newline_runs ascii_decimal (Some (lit "A*B:c"))
           (lit "AB:") (lit "c") 1 E).
Defined.

(** * The newline rule in the chain (line 73)

    What line 73 receives: line 65 leaves no newline, line 68 needs one
    to match, line 69 puts single newlines after headings, line 70 puts
    a second newline before a number, line 71 a second newline before a
    dash, and line 72 writes two newlines between a sentence and a
    capital letter. *)












Section NewlineRuns.
Variable is_decimal : char -> bool.
Hypothesis digits_not_nl : is_decimal NL = false.
Hypothesis digits_not_dash : is_decimal (chr "-") = false.




End NewlineRuns.


(** [before_newlines] is the text between lines 72 and 73. *)
Lemma format_response_stages is_decimal c text :
  format_response is_decimal (Some (c :: text)) =
  strip (re_sub re_blanks [Txt [SP]]
           (collapse_newlines (before_newlines is_decimal (c :: text)))).
Proof. reflexivity. Qed.



(** ** Removing the markers *)

Lemma filter_skipn_span p s :
  filter (fun c => negb (p c)) (skipn (span p s) s) =
  filter (fun c => negb (p c)) s.
Proof.
  induction s as [| x s IH]; [reflexivity |].
  simpl. destruct (p x) eqn:Hx; simpl; [exact IH | now rewrite Hx].
Qed.

Lemma re_sub_rep_filter p s :
  re_sub (Rep p 1) [] s = filter (fun c => negb (p c)) s.
Proof.
  remember (length s) as m eqn:Hm. revert s Hm.
  induction m as [m IH] using lt_wf_ind. intros s Hm.
  destruct s as [| x s]; [reflexivity |].
  destruct (p x) eqn:Hx.
  - rewrite re_sub_rep_match by (simpl; rewrite ?Hx; lia).
    rewrite <- filter_skipn_span. cbn [expand flat_map app].
    eapply IH; [| reflexivity]. subst m. rewrite length_skipn.
    simpl. rewrite Hx. simpl. lia.
  - rewrite re_sub_rep_keep by (simpl; rewrite Hx; lia).
    simpl. rewrite Hx. simpl. f_equal.
    eapply IH; [| reflexivity]. subst m. simpl. lia.
Qed.

Lemma strip_markers_In (x : char) (s : str) :
  In x (strip_markers s) <->
  In x s /\ negb (is_star x || is_marker x) = true.
Proof.
  unfold strip_markers, re_stars, re_markers.
  rewrite !re_sub_rep_filter, !filter_In.
  destruct (is_star x), (is_marker x); simpl; intuition discriminate.
Qed.

(** Lines 63-64 remove the characters [*], [_], [~] and the backquote,
    every one of them, and keep all the others in their order. *)
Theorem strip_markers_filter (text : str) :
  strip_markers text =
  filter (fun c => negb (is_star c || is_marker c)) text.
Proof.
  unfold strip_markers, re_stars, re_markers. rewrite !re_sub_rep_filter.
  induction text as [| c text IH]; [reflexivity |].
  simpl. destruct (is_star c); simpl; [exact IH |].
  destruct (is_marker c); simpl; [exact IH | f_equal; exact IH].
Qed.

(** ** When the response is empty *)

Lemma rewrites_Exists (Q : char -> Prop) r t s out :
  rewrites r t s out ->
  (forall w g, denote r w no_groups g -> Exists Q w -> Exists Q (expand t g)) ->
  Exists Q s -> Exists Q out.
Proof.
  intros H Hexp.
  induction H as [| c s out Hm H IH | w s g out Hw Hm Hd H IH]; intros Hs.
  - exact Hs.
  - inversion Hs; subst; [left; assumption | right; auto].
  - apply Exists_app in Hs. apply Exists_app.
    destruct Hs as [Hs | Hs]; [left; eauto | right; auto].
Qed.

(** A repetition pattern only replaces characters of its class. *)
Lemma re_sub_rep_Exists (Q : char -> Prop) p lo t s :
  0 < lo -> (forall x, Q x -> p x = false) ->
  Exists Q s -> Exists Q (re_sub (Rep p lo) t s).
Proof.
  intros Hlo HQ. apply (@rewrites_Exists Q (Rep p lo) t s).
  - apply re_sub_rewrites. simpl. apply Nat.eqb_neq. lia.
  - intros w g [[Hall _] _] Hex. exfalso.
    apply Exists_exists in Hex. destruct Hex as (x & Hx & HQx).
    rewrite forallb_forall in Hall. specialize (Hall x Hx).
    rewrite (HQ x HQx) in Hall. discriminate.
Qed.

Lemma not_space_one c : is_space c = true -> ~ Exists not_space [c].
Proof.
  intros Hc H. inversion H as [? ? Hx | ? ? Hx]; subst.
  - unfold not_space in Hx. congruence.
  - inversion Hx.
Qed.

Lemma nl_is_space c : is_nl c = true -> is_space c = true.
Proof.
  intros H. apply is_char_eq in H. subst c. reflexivity.
Qed.

Lemma not_space_all w :
  forallb is_space w = true -> ~ Exists not_space w.
Proof.
  intros Hall H. apply Exists_exists in H. destruct H as (x & Hx & Hn).
  rewrite forallb_forall in Hall. unfold not_space in Hn.
  rewrite (Hall x Hx) in Hn. discriminate.
Qed.

Ltac exists_split2 H :=
  apply Exists_app in H; destruct H as [H | H].

Ltac exists_split3 H :=
  apply Exists_app in H; destruct H as [H | H]; [| exists_split2 H].

Ltac exists_split4 H :=
  apply Exists_app in H; destruct H as [H | H]; [| exists_split3 H].

Lemma heading_line_keeps w g :
  denote re_heading_line w no_groups g -> Exists not_space w ->
  Exists not_space (expand [Txt [NL; NL]; Ref 1; Txt [NL]] g).
Proof.
  intros (wa & wb & ga & -> & ((ca & -> & Hca) & ->)
          & (wc & wd & gb & -> & (gc & _ & ->) & ((cd & -> & Hcd) & ->))) H.
  cbn [expand flat_map]. unfold set_group. cbn [Nat.eqb].
  exists_split3 H.
  - exfalso. eapply not_space_one; [| exact H]. apply nl_is_space. assumption.
  - apply Exists_app. right. apply Exists_app. left. exact H.
  - exfalso. eapply not_space_one; [| exact H]. apply nl_is_space. assumption.
Qed.

Lemma heading_text_keeps w g :
  denote re_heading_text w no_groups g -> Exists not_space w ->
  Exists not_space (expand [Ref 1; Txt [NL]; Ref 2] g).
Proof.
  intros (w1 & w2 & g1 & -> & (g0 & _ & ->)
          & (g2 & ((c & -> & Hc) & ->) & ->)) H.
  cbn [expand flat_map]. unfold set_group. cbn [Nat.eqb].
  exists_split2 H.
  - apply Exists_app. left. exact H.
  - apply Exists_app. right. right. exact H.
Qed.

Lemma numbered_keeps d w g :
  denote (re_numbered d) w no_groups g -> Exists not_space w ->
  Exists not_space (expand [Txt [NL; NL]; Ref 1] g).
Proof.
  intros (wa & wb & ga & -> & ((ca & -> & Hca) & ->) & (gb & _ & ->)) H.
  cbn [expand flat_map]. unfold set_group. cbn [Nat.eqb].
  exists_split2 H.
  - exfalso. eapply not_space_one; [| exact H]. apply nl_is_space. assumption.
  - apply Exists_app. right. apply Exists_app. left. exact H.
Qed.

Lemma bullet_keeps w g :
  denote re_bullet w no_groups g -> Exists not_space w ->
  Exists not_space (expand [Txt [NL; NL]; Ref 1] g).
Proof.
  intros (wa & wb & ga & -> & ((ca & -> & Hca) & ->) & (gb & _ & ->)) H.
  cbn [expand flat_map]. unfold set_group. cbn [Nat.eqb].
  exists_split2 H.
  - exfalso. eapply not_space_one; [| exact H]. apply nl_is_space. assumption.
  - apply Exists_app. right. apply Exists_app. left. exact H.
Qed.

Lemma sentence_keeps w g :
  denote re_sentence w no_groups g -> Exists not_space w ->
  Exists not_space (expand [Ref 1; Txt [NL; NL]; Ref 2] g).
Proof.
  intros (wa & wb & ga & -> & (g0 & ((ca & -> & Hca) & ->) & ->)
          & (wc & wd & gb & -> & ((Hws & _) & ->)
             & (we & wf & gc & -> & ((ce & -> & Hce) & ->)
                & (gd & ((cf & -> & Hcf) & ->) & ->)))) H.
  cbn [expand flat_map]. unfold set_group. cbn [Nat.eqb].
  exists_split4 H.
  - apply Exists_app. left. exact H.
  - exfalso. eapply not_space_all; [| exact H]. assumption.
  - exfalso. eapply not_space_one; [| exact H]. apply nl_is_space. assumption.
  - apply Exists_app. right. right. right. exact H.
Qed.

Lemma strip_Exists s : Exists not_space s -> Exists not_space (strip s).
Proof.
  intros H. unfold strip.
  destruct (lstrip_split s) as (ws & E & Hws).
  destruct (rstrip_split (lstrip s)) as (ws' & E' & Hws').
  assert (Hno : forall l, Forall (fun c => is_space c = true) l ->
                          ~ Exists not_space l).
  { intros l Hl Hx. apply Exists_exists in Hx. destruct Hx as (x & Hx & Hn).
    rewrite Forall_forall in Hl. unfold not_space in Hn.
    rewrite (Hl x Hx) in Hn. discriminate. }
  rewrite E in H. apply Exists_app in H.
  destruct H as [H | H]; [exfalso; exact (Hno _ Hws H) |].
  rewrite E' in H. apply Exists_app in H.
  destruct H as [H | H]; [exact H | exfalso; exact (Hno _ Hws' H)].
Qed.

Section Solid.
Variable is_decimal : char -> bool.

Lemma restructure_Exists s :
  Exists not_space s -> Exists not_space (restructure is_decimal s).
Proof.
  intros H. unfold restructure, collapse_newlines.
  assert (Hblank : forall x, not_space x -> is_blank x = false).
  { intros x Hx. destruct (is_blank x) eqn:E; auto.
    apply blank_space in E. unfold not_space in Hx. congruence. }
  assert (Hnl : forall x, not_space x -> is_nl x = false).
  { intros x Hx. destruct (is_nl x) eqn:E; auto.
    apply nl_is_space in E. unfold not_space in Hx. congruence. }
  apply re_sub_rep_Exists; [lia | exact Hblank |].
  apply re_sub_rep_Exists; [lia | exact Hnl |].
  eapply rewrites_Exists;
    [apply re_sub_rewrites; reflexivity | apply sentence_keeps |].
  eapply rewrites_Exists;
    [apply re_sub_rewrites; reflexivity | apply bullet_keeps |].
  eapply rewrites_Exists;
    [apply re_sub_rewrites; reflexivity | apply numbered_keeps |].
  eapply rewrites_Exists;
    [apply re_sub_rewrites; reflexivity | apply heading_text_keeps |].
  eapply rewrites_Exists;
    [apply re_sub_rewrites; reflexivity | apply heading_line_keeps |].
  exact H.
Qed.

(** A solid character of the input survives the whole chain. *)
Lemma format_response_solid c text :
  Exists (fun x => is_solid x = true) (c :: text) ->
  Exists not_space (format_response is_decimal (Some (c :: text))).
Proof.
  intros H. cbn [format_response].
  apply strip_Exists, restructure_Exists.
  unfold collapse_spaces, re_spaces.
  apply re_sub_rep_Exists; [lia | auto |].
  assert (Hs : Exists (fun x => is_solid x = true) (strip (c :: text))).
  { assert (Hboth : Exists (fun x => not_space x /\ is_solid x = true)
                           (c :: text)).
    { eapply Exists_impl; [| exact H]. intros x Hx. split; [| exact Hx].
      unfold is_solid in Hx. apply negb_true_iff in Hx.
      apply orb_false_iff in Hx. destruct Hx as [Hx _].
      apply orb_false_iff in Hx. apply Hx. }
    clear H. revert Hboth. generalize (c :: text). intros s Hboth.
    apply Exists_exists in Hboth. destruct Hboth as (x & Hx & Hn & Hsol).
    assert (Hin : Exists (fun y => not_space y /\ y = x) s)
      by (apply Exists_exists; exists x; auto).
    clear Hx. apply Exists_exists.
    exists x. split; [| exact Hsol].
    assert (Hst : forall l, In x l -> In x (strip l)).
    { intros l Hl. unfold strip.
      destruct (lstrip_split l) as (ws & E & Hws).
      destruct (rstrip_split (lstrip l)) as (ws' & E' & Hws').
      rewrite Forall_forall in Hws, Hws'.
      rewrite E in Hl. apply in_app_or in Hl.
      destruct Hl as [Hl | Hl];
        [apply Hws in Hl; unfold not_space in Hn; congruence |].
      rewrite E' in Hl. apply in_app_or in Hl.
      destruct Hl as [Hl | Hl]; [exact Hl |].
      apply Hws' in Hl. unfold not_space in Hn. congruence. }
    apply Hst. apply Exists_exists in Hin.
    destruct Hin as (y & Hy & _ & ->). exact Hy. }
  apply Exists_exists in Hs. destruct Hs as (x & Hx & Hsol).
  apply Exists_exists. exists x.
  unfold is_solid in Hsol. apply negb_true_iff in Hsol.
  apply orb_false_iff in Hsol. destruct Hsol as [Hsol Hmark].
  apply orb_false_iff in Hsol. destruct Hsol as [Hsp Hstar].
  split; [| exact Hsp].
  apply strip_markers_In. split; [exact Hx |].
  rewrite Hstar, Hmark. reflexivity.
Qed.

(** Text of whitespace and markers only is emptied. *)
Lemma format_response_hollow c text :
  forallb (fun x => negb (is_solid x)) (c :: text) = true ->
  format_response is_decimal (Some (c :: text)) = [].
Proof.
  intros H. cbn [format_response].
  assert (Hsp : Forall (fun x => is_space x = true)
                       (strip_markers (strip (c :: text)))).
  { apply Forall_forall. intros x Hx.
    apply strip_markers_In in Hx. destruct Hx as [Hx Hm].
    assert (Hx' : In x (c :: text)).
    { revert Hx. generalize (c :: text). intros l Hl.
      pose proof (@strip_Forall (fun y => In y l) l) as Hf.
      rewrite !Forall_forall in Hf. apply Hf; auto. }
    rewrite forallb_forall in H. specialize (H x Hx').
    unfold is_solid in H. rewrite negb_involutive in H.
    apply negb_true_iff in Hm. rewrite <- orb_assoc, Hm, orb_false_r in H.
    exact H. }
  destruct (strip_markers (strip (c :: text))) as [| x u] eqn:E;
    [reflexivity |].
  unfold collapse_spaces, re_spaces.
  rewrite re_sub_rep_all;
    [reflexivity | lia | simpl; lia | apply forallb_forall].
  rewrite Forall_forall in Hsp. exact Hsp.
Qed.
End Solid.

(** The response is the empty string exactly when the input is not
    empty and holds only whitespace and markdown markers; a single solid
    character is enough for a response that is not empty. *)
Theorem format_response_empty_iff (is_decimal : char -> bool) (text : str) :
  format_response is_decimal (Some text) = [] <->
  text <> [] /\ forallb (fun c => negb (is_solid c)) text = true.
Proof.
  split.
  - intros E. destruct text as [| c text]; [discriminate |].
    split; [discriminate |].
    destruct (forallb (fun c => negb (is_solid c)) (c :: text)) eqn:Hall;
      [reflexivity |].
    exfalso.
    assert (Hex : Exists (fun x => is_solid x = true) (c :: text)).
    { apply Exists_exists.
      destruct (existsb is_solid (c :: text)) eqn:Hx.
      - apply existsb_exists in Hx. exact Hx.
      - assert (forallb (fun c => negb (is_solid c)) (c :: text) = true);
          [| congruence].
        apply forallb_forall. intros x Hin. apply negb_true_iff.
        destruct (is_solid x) eqn:Hs; [| reflexivity].
        assert (existsb is_solid (c :: text) = true)
          by (apply existsb_exists; eauto).
        congruence. }
    apply (format_response_solid is_decimal) in Hex.
    pose proof (eq_ind _ (fun l => Exists not_space l) Hex _ E) as Hnil.
    inversion Hnil.
  - intros [Hne Hall]. destruct text as [| c text]; [contradiction |].
    apply format_response_hollow, Hall.
Qed.

(** ** Text the formatter leaves alone *)

Lemma breaks_refl x : breaks x x.
Proof.
  induction x; constructor; assumption.
Qed.

(** Clean text without any all-caps heading is returned as it is: no
    markdown marker, normalized whitespace, and no match of
    [[A-Z][A-Z\s]+:]. *)
Theorem format_response_fixed_point (is_decimal : char -> bool) (x : str) :
  x <> [] ->
  no_markers x = true ->
  normalized x = true ->
  re_search re_heading x = false ->
  format_response is_decimal (Some x) = x.
Proof.
  intros Hne Hm Hn Hh. destruct x as [| c x]; [contradiction |].
  cbn [normalized] in Hn. apply andb_true_iff in Hn.
  destruct Hn as [Hc Hx]. apply negb_true_iff in Hc.
  assert (Hlast : is_space (last (c :: x) SP) = false)
    by (apply single_last; auto; discriminate).
  assert (Hstrip : strip (c :: x) = c :: x)
    by (apply strip_id; assumption).
  cbn [format_response].
  rewrite Hstrip, strip_markers_id by assumption.
  unfold collapse_spaces, re_spaces. rewrite single_sub by assumption.
  rewrite restructure_no_nl by auto using single_space_no_nl.
  unfold re_blanks. rewrite single_sub; [exact Hstrip |].
  eapply breaks_single_blank; [apply breaks_refl | exact Hx].
Qed.

Lemma format_response_fixed_point_witness :
  lit "Hello there. It works!" <> []
  /\ no_markers (lit "Hello there. It works!") = true
  /\ normalized (lit "Hello there. It works!") = true
  /\ re_search re_heading (lit "Hello there. It works!") = false
  /\ format_response ascii_decimal (Some (lit "Hello there. It works!")) =
     lit "Hello there. It works!".
Proof.
  split; [discriminate |]. split; [reflexivity |]. split; [reflexivity |].
  split; [reflexivity |].
  apply format_response_fixed_point; [discriminate | reflexivity ..].
Defined.

(** * More on the context builder *)

Section ContextEdges.
Variable py_str : pyval -> str.
Variable bad_type : pyval -> exn.

Lemma context_loop_grows msgs :
  forall context out,
    context_loop py_str bad_type msgs context = Ok out ->
    exists more, out = context ++ more.
Proof.
  induction msgs as [| m msgs IH]; intros context out H.
  - injection H as <-. exists []. symmetry. apply app_nil_r.
  - destruct m; try discriminate. cbn [context_loop] in H.
    apply IH in H. destruct H as (more & ->).
    eexists. rewrite <- app_assoc. reflexivity.
Qed.

Lemma context_loop_raises msgs :
  forall context,
    (exists e, context_loop py_str bad_type msgs context = Raise e) <->
    Exists (fun v => forall d, v <> PDict d) msgs.
Proof.
  induction msgs as [| m msgs IH]; intros context.
  - split; [intros [e H]; discriminate | intros H; inversion H].
  - assert (Hdict : forall d, m = PDict d ->
              ((exists e, context_loop py_str bad_type (m :: msgs) context
                          = Raise e) <->
               Exists (fun v => forall d, v <> PDict d) (m :: msgs))).
    { intros d ->. cbn [context_loop]. rewrite IH. split.
      - intros H. right. exact H.
      - intros H. inversion H as [? ? Hx | ? ? Hx]; subst; [| exact Hx].
        exfalso. apply (Hx d). reflexivity. }
    destruct m; try (eapply Hdict; reflexivity);
      (split; [intros _; left; intros d; discriminate
              | intros _; eexists; reflexivity]).
Qed.
End ContextEdges.

(** The context block is empty exactly when the history is a false
    value ([None], [[]], [{}], [""], [0], [False]); for any other
    history the builder raises or returns a block that is not empty. *)
Theorem build_conversation_context_empty_iff
        (py_str : pyval -> str) (bad_type : pyval -> exn) (history : pyval) :
  build_conversation_context py_str bad_type history = Ok [] <->
  truthy history = false.
Proof.
  unfold build_conversation_context. split.
  - destruct (truthy history) eqn:Ht; [| reflexivity]. cbn [negb].
    destruct history; try discriminate.
    destruct (context_loop py_str bad_type (last10 l) context_header)
      as [out | e] eqn:E; [| discriminate].
    apply context_loop_grows in E. destruct E as (more & ->).
    intros H. injection H as H. discriminate.
  - intros ->. reflexivity.
Qed.

(** A list history makes the builder raise exactly when one of its last
    ten entries is not an object; entries before the last ten are never
    looked at, whatever they are. *)
Theorem build_conversation_context_raises_iff
        (py_str : pyval -> str) (bad_type : pyval -> exn)
        (history : list pyval) :
  (exists e, build_conversation_context py_str bad_type (PList history)
             = Raise e) <->
  Exists (fun v => forall d, v <> PDict d) (last10 history).
Proof.
  rewrite <- (context_loop_raises py_str bad_type (last10 history)
                                  context_header).
  unfold build_conversation_context.
  destruct history as [| v history].
  - simpl. split; intros [e H]; discriminate.
  - cbn [truthy negb].
    destruct (context_loop py_str bad_type (last10 (v :: history))
                           context_header) as [out | e0];
      split; intros [e H]; try discriminate; eexists; reflexivity.
Qed.

(** * More on the handlers *)

Lemma calls_only_none model w : calls_only model w w [].
Proof.
  unfold calls_only. rewrite app_nil_r. repeat split; auto.
Qed.

Lemma calls_only_one model g w p :
  model = Some g -> has_prefix SYSTEM_INSTRUCTION (prompt p) ->
  calls_only model w {| disk := disk w; asked := asked w ++ [p] |} [p].
Proof.
  intros Hm Hp. unfold calls_only. cbn [disk asked length].
  repeat split; auto. intros E. congruence.
Qed.

Lemma str_eqb_refl a : str_eqb a a = true.
Proof. apply str_eqb_eq. reflexivity. Qed.

Lemma asks_refl model w : asks model w w.
Proof.
  exists []. rewrite app_nil_r. repeat split; auto.
Qed.

Lemma asks_call model g w p :
  model = Some g -> has_prefix SYSTEM_INSTRUCTION (prompt p) ->
  asks model w {| disk := disk w; asked := asked w ++ [p] |}.
Proof.
  intros Hm Hp. exists [p]. cbn [asked length]. repeat split; auto.
  congruence.
Qed.

Lemma asks_saved model files w w' calls :
  calls_only model {| disk := files; asked := asked w |} w' calls ->
  asks model w w' /\ disk w' = files.
Proof.
  intros (Hd & Ha & Hlen & Hnone & Hpre). cbn [disk asked] in *.
  split; [exists calls; auto | exact Hd].
Qed.

(** Reading after writing. *)
Lemma str_eqb_neq a b : a <> b -> str_eqb a b = false.
Proof.
  intros H. destruct (str_eqb a b) eqn:E; [| reflexivity].
  apply str_eqb_eq in E. contradiction.
Qed.

Lemma lookup_saved path content files :
  lookup (write_file path content files) path = Some content.
Proof.
  unfold write_file. cbn [lookup]. rewrite str_eqb_refl. reflexivity.
Qed.

Lemma lookup_remove_other path p files :
  p <> path -> lookup (remove_file path files) p = lookup files p.
Proof.
  intros Hp. induction files as [| [q content] files IH]; [reflexivity |].
  cbn [remove_file lookup]. destruct (str_eqb q path) eqn:Eq.
  - apply str_eqb_eq in Eq. subst q.
    rewrite (@str_eqb_neq path p) by congruence. exact IH.
  - cbn [lookup]. rewrite IH. reflexivity.
Qed.

Lemma lookup_write_other path content p files :
  p <> path -> lookup (write_file path content files) p = lookup files p.
Proof.
  intros Hp. unfold write_file. cbn [lookup].
  rewrite (@str_eqb_neq path p) by congruence.
  apply lookup_remove_other, Hp.
Qed.

Section Collaborators.
Variable is_decimal : char -> bool.
Variable py_str : pyval -> str.
Variable bad_type : pyval -> exn.
Variable model : option (payload -> outcome str).
Variable json_loads : str -> outcome pyval.
Variable token : str.
Variable writable : str -> bool.
Variable decode_utf8 : bytes -> outcome str.
Variable b64encode : bytes -> str.

Let image_handler := process_image_file is_decimal model b64encode.
Let text_handler := process_text_file is_decimal model decode_utf8.
Let analyse_handler := analyse is_decimal model decode_utf8 b64encode.
Let upload_handler :=
  handle_file_upload is_decimal py_str bad_type model json_loads token
                     writable decode_utf8 b64encode.
Let chat_handler :=
  chat is_decimal py_str bad_type model json_loads token writable
       decode_utf8 b64encode.

Lemma process_image_file_answers file_path mime_type message context w :
  exists answer w' calls,
    image_handler file_path mime_type message context w = (Ok answer, w')
    /\ calls_only model w w' calls.
Proof.
  unfold image_handler, process_image_file, catch, bind, read_bytes, ret,
    generate_content.
  destruct (lookup (disk w) file_path) as [content |].
  - destruct model as [g |] eqn:Hm.
    + match goal with
      | |- context [g ?p] => set (sent := p)
      end.
      assert (Hp : has_prefix SYSTEM_INSTRUCTION (prompt sent))
        by (eexists; reflexivity).
      destruct (g sent);
        do 3 eexists; (split; [reflexivity | eapply calls_only_one; eauto]).
    + do 3 eexists. split; [reflexivity | apply calls_only_none].
  - do 3 eexists. split; [reflexivity | apply calls_only_none].
Qed.

Lemma process_text_file_answers file_path name message context w :
  exists answer w' calls,
    text_handler file_path name message context w = (Ok answer, w')
    /\ calls_only model w w' calls.
Proof.
  unfold text_handler, process_text_file, catch, bind, read_text, bind,
    read_bytes, ret, raise, generate_content.
  destruct (lookup (disk w) file_path) as [content |].
  - destruct (decode_utf8 content) as [file_content | [msg | msg]].
    + destruct model as [g |] eqn:Hm.
      * match goal with
        | |- context [g ?p] => set (sent := p)
        end.
        assert (Hp : has_prefix SYSTEM_INSTRUCTION (prompt sent))
          by (eexists; reflexivity).
        destruct (g sent) as [text | [msg | msg]];
          do 3 eexists; (split; [reflexivity | eapply calls_only_one; eauto]).
      * do 3 eexists. split; [reflexivity | apply calls_only_none].
    + do 3 eexists. split; [reflexivity | apply calls_only_none].
    + do 3 eexists. split; [reflexivity | apply calls_only_none].
  - do 3 eexists. split; [reflexivity | apply calls_only_none].
Qed.

Lemma analyse_answers file_path f message context w :
  exists answer w' calls,
    analyse_handler file_path f message context w = (Ok answer, w')
    /\ calls_only model w w' calls.
Proof.
  unfold analyse_handler, analyse.
  destruct (startswith (lit "image/") (mimetype f));
    [apply process_image_file_answers |].
  destruct (startswith (lit "text/") (mimetype f)
            || endswith_any TEXT_EXTENSIONS (filename f));
    [apply process_text_file_answers |].
  do 3 eexists. split; [reflexivity | apply calls_only_none].
Qed.

(** The two file processors and the dispatch never raise: whatever goes
    wrong while reading the file or calling the model, they return an
    answer; they leave the disk as it is. *)
Theorem file_processing_never_raises
        (file_path mime_type name message context : str) (f : upload)
        (w : world) :
  (exists answer w',
     image_handler file_path mime_type message context w = (Ok answer, w')
     /\ disk w' = disk w)
  /\ (exists answer w',
        text_handler file_path name message context w = (Ok answer, w')
        /\ disk w' = disk w)
  /\ (exists answer w',
        analyse_handler file_path f message context w = (Ok answer, w')
        /\ disk w' = disk w).
Proof.
  split; [| split].
  - destruct (process_image_file_answers file_path mime_type message context w)
      as (a & w' & calls & E & Hd & _). eauto.
  - destruct (process_text_file_answers file_path name message context w)
      as (a & w' & calls & E & Hd & _). eauto.
  - destruct (analyse_answers file_path f message context w)
      as (a & w' & calls & E & Hd & _). eauto.
Qed.

Lemma reply_ok_error n msg :
  n = 400 \/ n = 500 ->
  reply_ok {| status := n; body := [(lit "error", msg)] |}.
Proof.
  intros H. right. split; [exact H | eexists; reflexivity].
Qed.

Lemma reply_ok_response answer rest :
  reply_ok {| status := 200; body := (lit "response", answer) :: rest |}.
Proof.
  left. split; [reflexivity | do 2 eexists; reflexivity].
Qed.

Lemma handle_file_upload_world req w :
  exists r w',
    upload_handler req w = (r, w')
    /\ disk w' = disk_after token writable req (disk w)
    /\ asks model w w'
    /\ match r with Ok rep => reply_ok rep | Raise _ => True end.
Proof.
  unfold upload_handler, handle_file_upload, disk_after.
  destruct (file req) as [f |];
    [| do 2 eexists;
       split; [reflexivity
              | split; [reflexivity | split; [apply asks_refl | exact I]]]].
  destruct (nonempty (filename f)); cbn [negb andb];
    [| do 2 eexists;
       split; [reflexivity
              | split; [reflexivity
                       | split; [apply asks_refl
                                | apply reply_ok_error; auto]]]].
  unfold bind at 1. unfold catch, bind, save, ret.
  fold (upload_path token f).
  destruct (writable (upload_path token f)); cbn [negb];
    [| do 2 eexists;
       split; [reflexivity
              | split; [reflexivity
                       | split; [apply asks_refl
                                | apply reply_ok_error; auto]]]].
  destruct (build_conversation_context py_str bad_type _) as [context | e].
  - match goal with
    | |- context [analyse _ _ _ _ ?path f ?msg context ?w1] =>
        destruct (analyse_answers path f msg context w1)
          as (answer & w' & calls & E & Hcalls)
    end.
    unfold analyse_handler in E. unfold bind. rewrite E.
    apply asks_saved in Hcalls. destruct Hcalls as [Hasks Hdisk].
    do 2 eexists. split; [reflexivity |].
    split; [exact Hdisk | split; [exact Hasks | apply reply_ok_response]].
  - unfold raise. do 2 eexists. split; [reflexivity |].
    split; [reflexivity | split; [| exact I]].
    exists []. cbn [asked]. rewrite app_nil_r. repeat split; auto.
Qed.

Lemma chat_body_world req w :
  exists r w',
    chat_body is_decimal py_str bad_type model json_loads token writable
              decode_utf8 b64encode req w = (r, w')
    /\ disk w' = disk_after token writable req (disk w)
    /\ asks model w w'
    /\ match r with Ok rep => reply_ok rep | Raise _ => True end.
Proof.
  unfold chat_body. destruct (file req) as [f |] eqn:Hfile.
  - destruct (handle_file_upload_world req w) as (r & w' & E & Hd & Hg & Hr).
    exists r, w'. auto.
  - assert (Hquiet : forall r,
              match r with Ok rep => reply_ok rep | Raise _ => True end ->
              exists r0 w',
                (r, w) = (r0, w')
                /\ disk w' = disk_after token writable req (disk w)
                /\ asks model w w'
                /\ match r0 with Ok rep => reply_ok rep | Raise _ => True end).
    { intros r Hr. exists r, w. unfold disk_after. rewrite Hfile.
      split; [reflexivity | split; [reflexivity | split; auto]].
      apply asks_refl. }
    unfold raise, ret.
    destruct (json req) as [data | e]; [| apply Hquiet; exact I].
    destruct (truthy data); cbn [negb];
      [| apply Hquiet, reply_ok_error; auto].
    destruct data as [| | | | | | d]; try (apply Hquiet; exact I).
    destruct (truthy (get d (lit "message") PNone)); cbn [negb];
      [| apply Hquiet, reply_ok_error; auto].
    destruct (build_conversation_context py_str bad_type _) as [context | e];
      [| apply Hquiet; exact I].
    destruct (get d (lit "message") (PStr [])) as [| | | | message | |];
      try (apply Hquiet; exact I).
    unfold bind, generate_content.
    destruct model as [g |] eqn:Hm;
      [| apply Hquiet, reply_ok_response].
    match goal with
    | |- context [g ?p] => set (sent := p)
    end.
    assert (Hp : has_prefix SYSTEM_INSTRUCTION (prompt sent))
      by (eexists; reflexivity).
    destruct (g sent) as [text | e]; do 2 eexists;
      (split; [reflexivity |]);
      (split; [unfold disk_after; rewrite Hfile; reflexivity |]);
      (split; [eapply asks_call; eauto |]);
      [apply reply_ok_response | exact I].
Qed.

Lemma chat_world req w :
  disk (snd (chat_handler req w)) = disk_after token writable req (disk w)
  /\ asks model w (snd (chat_handler req w)).
Proof.
  unfold chat_handler, chat.
  destruct (chat_body_world req w) as (r & w' & E & Hd & Ha & _).
  rewrite E. destruct r; split; assumption.
Qed.

(** Every reply of [chat] has one of two shapes: status 200 with a
    [response] field, or status 400 or 500 with an [error] field alone;
    no other status is ever sent. *)
Theorem chat_reply_shape (req : request) (w : world) :
  reply_ok (fst (chat_handler req w)).
Proof.
  unfold chat_handler, chat.
  destruct (chat_body_world req w) as (r & w' & E & _ & _ & Hr).
  rewrite E. destruct r as [rep | e]; [exact Hr |].
  apply reply_ok_error. auto.
Qed.

(** The only change a request makes to the disk is to write the uploaded
    file under [static/uploads/<token>_<name>], when the file part has a
    name and the save succeeds; a file already stored under that path is
    replaced.  No file is removed, and every file under another path
    keeps its content. *)
Theorem chat_keeps_files (req : request) (w : world) :
  disk (snd (chat_handler req w)) =
  match file req with
  | Some f =>
      if nonempty (filename f)
         && writable (lit "static/uploads/" ++ token ++ lit "_" ++ filename f)
      then write_file (lit "static/uploads/" ++ token ++ lit "_" ++ filename f)
                      (data f) (disk w)
      else disk w
  | None => disk w
  end
  /\ (forall p content,
        lookup (disk w) p = Some content ->
        exists content', lookup (disk (snd (chat_handler req w))) p
                         = Some content')
  /\ (forall p,
        (forall f, file req = Some f ->
                   p <> lit "static/uploads/" ++ token ++ lit "_" ++ filename f) ->
        lookup (disk (snd (chat_handler req w))) p = lookup (disk w) p).
Proof.
  destruct (chat_world req w) as [Hd _]. rewrite Hd. clear Hd.
  unfold disk_after.
  change (lit "static/uploads/" ++ token) with (UPLOAD_FOLDER ++ lit "/" ++ token).
  split; [reflexivity |].
  destruct (file req) as [f |]; [| split; eauto].
  fold (upload_path token f).
  destruct (nonempty (filename f) && writable (upload_path token f));
    [| split; eauto].
  split.
  - intros p content Hp.
    destruct (str_eqb p (upload_path token f)) eqn:E.
    + apply str_eqb_eq in E. subst p. rewrite lookup_saved. eauto.
    + rewrite lookup_write_other; [eauto |].
      intros ->. rewrite str_eqb_refl in E. discriminate E.
  - intros p Hp. apply lookup_write_other. apply (Hp f eq_refl).
Qed.

(** The model is called at most once for a request, never when the
    handle is [None], and every prompt it receives begins with the system
    instruction. *)
Theorem chat_calls_model_once (req : request) (w : world) :
  exists calls,
    asked (snd (chat_handler req w)) = asked w ++ calls
    /\ length calls <= 1
    /\ (model = None -> calls = [])
    /\ Forall (fun p => has_prefix SYSTEM_INSTRUCTION (prompt p)) calls.
Proof.
  destruct (chat_world req w) as [_ Ha]. exact Ha.
Qed.
End Collaborators.

Lemma chat_keeps_files_witness :
  disk (snd (chat_stub (upload_request png_upload (lit "[]")) stored_world)) =
  [(lit "static/uploads/0123456789abcdef_photo.png", []);
   (lit "static/uploads/ffffffffffffffff_notes.txt", [Byte.x43])]
  /\ lookup
       (disk (snd (chat_stub (upload_request png_upload (lit "[]"))
                             stored_world)))
       (lit "static/uploads/ffffffffffffffff_notes.txt") =
     lookup (disk stored_world)
            (lit "static/uploads/ffffffffffffffff_notes.txt").
Proof.
  unfold chat_stub.
  destruct (chat_keeps_files
              ascii_decimal py_str_stub bad_type_stub model_stub
              json_loads_stub (lit "0123456789abcdef") (fun _ => true)
              decode_stub b64_stub
              (upload_request png_upload (lit "[]")) stored_world)
    as (Hdisk & _ & Hother).
  split.
  - rewrite Hdisk. reflexivity.
  - apply Hother. intros f Hf. injection Hf as <-.
    intros E. apply str_eqb_eq in E. vm_compute in E. discriminate E.
Defined.

(** ** A history field that is not JSON *)

Section MalformedHistory.
Variable is_decimal : char -> bool.
Variable py_str : pyval -> str.
Variable bad_type : pyval -> exn.
Variable model : option (payload -> outcome str).
Variable json_loads : str -> outcome pyval.
Variable token : str.
Variable writable : str -> bool.
Variable decode_utf8 : bytes -> outcome str.
Variable b64encode : bytes -> str.

Let upload_handler : request -> M reply :=
  handle_file_upload is_decimal py_str bad_type model json_loads token
                     writable decode_utf8 b64encode.

Let chat_handler : request -> world -> reply * world :=
  chat is_decimal py_str bad_type model json_loads token writable
       decode_utf8 b64encode.

(** C7: when [json.loads] raises on the [conversation_history] field the
    upload does not fail on that account.  The file is analysed with the
    empty context, the analysis returns an answer, and the reply is the
    200 that carries it; the only replies that are not a 200 are the two
    that do not depend on the history: 400 for a file part without a
    name, 500 for a file that cannot be written.  The request is answered
    as the same request without the field is. *)
Theorem upload_malformed_history (req : request) (f : upload) (e : exn)
        (w : world) :
  file req = Some f ->
  json_loads (form_get (form req) (lit "conversation_history") (lit "[]")) =
  Raise e ->
  json_loads (lit "[]") = Ok (PList []) ->
  let message := form_get (form req) (lit "message") [] in
  let path := lit "static/uploads/" ++ token ++ lit "_" ++ filename f in
  let saved :=
    {| disk := write_file path (data f) (disk w); asked := asked w |} in
  upload_handler req w = upload_handler (without_history req) w
  /\ chat_handler req w = chat_handler (without_history req) w
  /\ exists answer w',
       analyse is_decimal model decode_utf8 b64encode path f message []
               saved = (Ok answer, w')
       /\ chat_handler req w =
          if negb (nonempty (filename f)) then
            ({| status := 400;
                body := [(lit "error", lit "No file selected")] |}, w)
          else if negb (writable path) then
            ({| status := 500;
                body := [(lit "error", lit "Failed to save file")] |}, w)
          else
            ({| status := 200;
                body := [(lit "response", answer);
                         (lit "file_url",
                          lit "/static/uploads/" ++ token ++ lit "_"
                          ++ filename f);
                         (lit "file_name", filename f);
                         (lit "file_type", mimetype f)] |}, w').
Proof.
  intros Hfile Hbad Hempty message path saved.
  assert (Hup : upload_handler req w = upload_handler (without_history req) w).
  { unfold upload_handler, handle_file_upload, without_history.
    cbn [form file]. rewrite Hfile, !form_get_filter. cbn [str_eqb lit].
    change (str_eqb (lit "conversation_history") (lit "message")) with false.
    change (str_eqb (lit "conversation_history") (lit "conversation_history"))
      with true.
    cbv iota. rewrite Hbad, Hempty. reflexivity. }
  split; [exact Hup |]. split.
  { unfold chat_handler, chat, chat_body. cbn [file without_history].
    rewrite Hfile. fold upload_handler. rewrite Hup. reflexivity. }
  destruct (analyse_answers is_decimal py_str bad_type model json_loads
              token writable decode_utf8 b64encode path f message [] saved)
    as (answer & w' & calls & Hanswer & _).
  exists answer, w'. split; [exact Hanswer |].
  unfold chat_handler, chat, chat_body. rewrite Hfile.
  unfold handle_file_upload. rewrite Hfile, Hbad.
  destruct (nonempty (filename f)); [| reflexivity].
  cbn [negb truthy build_conversation_context].
  change (UPLOAD_FOLDER ++ lit "/" ++ token ++ lit "_" ++ filename f)
    with path.
  unfold bind at 1. unfold catch, bind at 1, save, ret.
  destruct (writable path); [| reflexivity].
  cbn [negb]. fold saved. fold message.
  unfold bind. rewrite Hanswer. reflexivity.
Qed.
End MalformedHistory.

Lemma upload_malformed_history_witness :
  file (upload_request csv_upload (lit "{bad")) = Some csv_upload
  /\ json_loads_stub
       (form_get (form (upload_request csv_upload (lit "{bad")))
                 (lit "conversation_history") (lit "[]")) =
     Raise (Exception (lit "JSONDecodeError"))
  /\ json_loads_stub (lit "[]") = Ok (PList [])
  /\ chat_stub (upload_request csv_upload (lit "{bad")) empty_world =
     chat_stub (without_history (upload_request csv_upload (lit "{bad")))
               empty_world
  /\ chat_stub (upload_request csv_upload (lit "{bad")) empty_world =
     ({| status := 200;
         body := [(lit "response", lit "Hi there!");
                  (lit "file_url",
                   lit "/static/uploads/0123456789abcdef_data.csv");
                  (lit "file_name", lit "data.csv");
                  (lit "file_type", lit "application/octet-stream")] |},
      {| disk := [(lit "static/uploads/0123456789abcdef_data.csv", [])];
         asked :=
           [{| prompt := SYSTEM_INSTRUCTION ++ [NL; NL]
                         ++ lit "I've uploaded a file called 'data.csv'."
                         ++ lit " Could you analyze it?" ++ [NL; NL]
                         ++ lit "Here's the content:" ++ [NL; NL]
                         ++ lit "```" ++ [NL] ++ lit "a,b" ++ [NL]
                         ++ lit "```" ++ [NL; NL] ++ lit "What is this?";
               attachment := None |}] |}).
Proof.
  split; [reflexivity |]. split; [reflexivity |]. split; [reflexivity |].
  destruct (@upload_malformed_history
              ascii_decimal py_str_stub bad_type_stub model_stub
              json_loads_stub (lit "0123456789abcdef") (fun _ => true)
              decode_stub b64_stub
              (upload_request csv_upload (lit "{bad")) csv_upload
              (Exception (lit "JSONDecodeError")) empty_world
              eq_refl eq_refl eq_refl)
    as (_ & Hsame & answer & w' & Hanswer & Hreply).
  split; [exact Hsame |].
  unfold chat_stub. rewrite Hreply.
  vm_compute in Hanswer. injection Hanswer as <- <-. reflexivity.
Defined.

(** ** The paths of a request, end to end *)

Lemma get_found d k default v :
  dict_get d k = Some v -> get d k default = v.
Proof.
  intros H. unfold get. rewrite H. reflexivity.
Qed.

Section Paths.
Variable is_decimal : char -> bool.
Variable py_str : pyval -> str.
Variable bad_type : pyval -> exn.
Variable json_loads : str -> outcome pyval.
Variable token : str.
Variable writable : str -> bool.
Variable decode_utf8 : bytes -> outcome str.
Variable b64encode : bytes -> str.

Let chat_with (model : option (payload -> outcome str)) :=
  chat is_decimal py_str bad_type model json_loads token writable
       decode_utf8 b64encode.

Let history_of (req : request) : pyval :=
  match json_loads
          (form_get (form req) (lit "conversation_history") (lit "[]")) with
  | Ok v => v
  | Raise _ => PList []
  end.

Let path_of (f : upload) : str :=
  lit "static/uploads/" ++ token ++ lit "_" ++ filename f.

Let upload_reply (f : upload) (answer : str) : reply :=
  {| status := 200;
     body := [(lit "response", answer);
              (lit "file_url",
               lit "/static/uploads/" ++ token ++ lit "_" ++ filename f);
              (lit "file_name", filename f);
              (lit "file_type", mimetype f)] |}.

(** The JSON path with a message that is a string and not empty, and a
    history the context builder accepts: without a model the answer is
    the fixed [AI model is not available.]; otherwise the model receives
    the system instruction, the context, the message and
    [\n\nAssistant:], once, and its text is formatted (an empty text gives
    the fixed [I'm not sure how to respond to that.]); if the call raises
    the reply is a 500 with the text of the exception. *)
Theorem chat_json_answer
        (model : option (payload -> outcome str))
        (req : request) (d : dict) (message context : str) (w : world) :
  file req = None ->
  json req = Ok (PDict d) ->
  dict_get d (lit "message") = Some (PStr message) ->
  nonempty message = true ->
  build_conversation_context py_str bad_type
    (get d (lit "conversation_history") (PList [])) = Ok context ->
  chat_with model req w =
  match model with
  | None =>
      ({| status := 200;
          body := [(lit "response", lit "AI model is not available.")] |}, w)
  | Some generate =>
      let sent :=
        {| prompt := SYSTEM_INSTRUCTION ++ context ++ message ++ [NL; NL]
                     ++ lit "Assistant:";
           attachment := None |} in
      let w' := {| disk := disk w; asked := asked w ++ [sent] |} in
      match generate sent with
      | Ok text =>
          ({| status := 200;
              body := [(lit "response",
                        if nonempty text
                        then format_response is_decimal (Some text)
                        else lit "I'm not sure how to respond to that.")] |},
           w')
      | Raise e =>
          ({| status := 500;
              body := [(lit "error",
                        lit "An error occurred: " ++ exn_str e)] |}, w')
      end
  end.
Proof.
  intros Hfile Hjson Hmsg Hne Hctx.
  unfold chat_with, chat, chat_body. rewrite Hfile, Hjson.
  assert (Hd : truthy (PDict d) = true)
    by (destruct d; [discriminate | reflexivity]).
  rewrite Hd. cbn [negb].
  rewrite (@get_found d _ PNone _ Hmsg), (@get_found d _ (PStr []) _ Hmsg).
  destruct message as [| c message]; [discriminate Hne |].
  cbn [truthy negb]. rewrite Hctx.
  destruct model as [generate |]; [| reflexivity].
  unfold bind, generate_content, ret.
  destruct (generate _); reflexivity.
Qed.

(** An image upload: the file is written under
    [static/uploads/<token>_<name>] and read back, and the model receives
    the base64 text of exactly the uploaded bytes with the declared mime
    type, next to the system instruction, the context and the message (or
    the fixed request when the message is empty).  A call that raises
    still gives a reply with status 200, holding an apology. *)
Theorem chat_image_upload
        (generate : payload -> outcome str)
        (req : request) (f : upload) (context : str) (w : world) :
  file req = Some f ->
  nonempty (filename f) = true ->
  writable (path_of f) = true ->
  build_conversation_context py_str bad_type (history_of req) = Ok context ->
  startswith (lit "image/") (mimetype f) = true ->
  let message := form_get (form req) (lit "message") [] in
  let sent :=
    {| prompt := SYSTEM_INSTRUCTION ++ context ++ [NL; NL]
                 ++ (if nonempty message then message else IMAGE_REQUEST);
       attachment := Some (mimetype f, b64encode (data f)) |} in
  chat_with (Some generate) req w =
  (upload_reply f
     match generate sent with
     | Ok text =>
         if nonempty text then format_response is_decimal (Some text)
         else lit "I couldn't analyze this image."
     | Raise e =>
         lit "Sorry, I couldn't process this image. Error: " ++ exn_str e
     end,
   {| disk := write_file (path_of f) (data f) (disk w); asked := asked w ++ [sent] |}).
Proof.
  intros Hfile Hname Hw Hctx Himg message sent.
  unfold chat_with, chat, chat_body. rewrite Hfile.
  unfold handle_file_upload. rewrite Hfile, Hname. cbn [negb].
  fold (history_of req). rewrite Hctx.
  change (UPLOAD_FOLDER ++ lit "/" ++ token ++ lit "_" ++ filename f)
    with (path_of f).
  unfold bind at 1. unfold catch, bind at 1, save, ret. rewrite Hw.
  cbn [negb]. unfold analyse. rewrite Himg.
  unfold bind, process_image_file, catch, bind, read_bytes, ret,
    generate_content.
  cbn [disk asked]. rewrite lookup_saved.
  fold message. fold sent. destruct (generate sent); reflexivity.
Qed.

(** A text upload whose bytes decode: the model receives the name of the
    file and its decoded content between code fences, once.  The handler
    of [UnicodeDecodeError] spans the call as well: a model that raises
    this exception is answered with the apology for an unreadable file. *)
Theorem chat_text_upload
        (generate : payload -> outcome str)
        (req : request) (f : upload) (context content : str) (w : world) :
  file req = Some f ->
  nonempty (filename f) = true ->
  writable (path_of f) = true ->
  build_conversation_context py_str bad_type (history_of req) = Ok context ->
  startswith (lit "image/") (mimetype f) = false ->
  startswith (lit "text/") (mimetype f)
  || endswith_any TEXT_EXTENSIONS (filename f) = true ->
  decode_utf8 (data f) = Ok content ->
  let message := form_get (form req) (lit "message") [] in
  let sent :=
    {| prompt := SYSTEM_INSTRUCTION ++ context ++ [NL; NL]
                 ++ lit "I've uploaded a file called '" ++ filename f
                 ++ lit "'. Could you analyze it?" ++ [NL; NL]
                 ++ lit "Here's the content:" ++ [NL; NL] ++ lit "```"
                 ++ [NL] ++ content ++ [NL] ++ lit "```" ++ [NL; NL]
                 ++ (if nonempty message then message else FILE_REQUEST);
       attachment := None |} in
  chat_with (Some generate) req w =
  (upload_reply f
     match generate sent with
     | Ok text =>
         if nonempty text then format_response is_decimal (Some text)
         else lit "I couldn't analyze this file."
     | Raise (UnicodeDecodeError _) =>
         lit "Sorry, I couldn't read this file. "
         ++ lit "It might be in a format I don't support."
     | Raise (Exception msg) =>
         lit "Sorry, I couldn't process this file. Error: " ++ msg
     end,
   {| disk := write_file (path_of f) (data f) (disk w); asked := asked w ++ [sent] |}).
Proof.
  intros Hfile Hname Hw Hctx Himg Htxt Hdec message sent.
  unfold chat_with, chat, chat_body. rewrite Hfile.
  unfold handle_file_upload. rewrite Hfile, Hname. cbn [negb].
  fold (history_of req). rewrite Hctx.
  change (UPLOAD_FOLDER ++ lit "/" ++ token ++ lit "_" ++ filename f)
    with (path_of f).
  unfold bind at 1. unfold catch, bind at 1, save, ret. rewrite Hw.
  cbn [negb]. unfold analyse. rewrite Himg, Htxt.
  unfold bind, process_text_file, catch, read_text, bind, read_bytes, ret,
    raise, generate_content.
  cbn [disk asked]. rewrite lookup_saved, Hdec.
  fold message. fold sent.
  destruct (generate sent) as [text | [msg | msg]]; reflexivity.
Qed.

(** A text upload whose bytes are not UTF-8: the reply has status 200
    and the fixed apology, the file stays on the disk, and the model,
    though available, is not called. *)
Theorem chat_text_upload_undecodable
        (model : option (payload -> outcome str))
        (req : request) (f : upload) (context msg : str) (w : world) :
  file req = Some f ->
  nonempty (filename f) = true ->
  writable (path_of f) = true ->
  build_conversation_context py_str bad_type (history_of req) = Ok context ->
  startswith (lit "image/") (mimetype f) = false ->
  startswith (lit "text/") (mimetype f)
  || endswith_any TEXT_EXTENSIONS (filename f) = true ->
  decode_utf8 (data f) = Raise (UnicodeDecodeError msg) ->
  chat_with model req w =
  (upload_reply f
     (lit "Sorry, I couldn't read this file. "
      ++ lit "It might be in a format I don't support."),
   {| disk := write_file (path_of f) (data f) (disk w); asked := asked w |}).
Proof.
  intros Hfile Hname Hw Hctx Himg Htxt Hdec.
  unfold chat_with, chat, chat_body. rewrite Hfile.
  unfold handle_file_upload. rewrite Hfile, Hname. cbn [negb].
  fold (history_of req). rewrite Hctx.
  change (UPLOAD_FOLDER ++ lit "/" ++ token ++ lit "_" ++ filename f)
    with (path_of f).
  unfold bind at 1. unfold catch, bind at 1, save, ret. rewrite Hw.
  cbn [negb]. unfold analyse. rewrite Himg, Htxt.
  unfold bind, process_text_file, catch, read_text, bind, read_bytes, ret,
    raise.
  cbn [disk asked]. rewrite lookup_saved, Hdec. reflexivity.
Qed.

(** An upload whose history the context builder rejects: the reply is a
    500 with the text of the exception, but the file was already written
    and stays on the disk; the model is not called. *)
Theorem chat_upload_bad_history
        (model : option (payload -> outcome str))
        (req : request) (f : upload) (e : exn) (w : world) :
  file req = Some f ->
  nonempty (filename f) = true ->
  writable (path_of f) = true ->
  build_conversation_context py_str bad_type (history_of req) = Raise e ->
  chat_with model req w =
  ({| status := 500;
      body := [(lit "error", lit "An error occurred: " ++ exn_str e)] |},
   {| disk := write_file (path_of f) (data f) (disk w); asked := asked w |}).
Proof.
  intros Hfile Hname Hw Hctx.
  unfold chat_with, chat, chat_body. rewrite Hfile.
  unfold handle_file_upload. rewrite Hfile, Hname. cbn [negb].
  fold (history_of req). rewrite Hctx.
  change (UPLOAD_FOLDER ++ lit "/" ++ token ++ lit "_" ++ filename f)
    with (path_of f).
  unfold bind, catch, save, ret, raise. rewrite Hw. reflexivity.
Qed.

(** An upload that is turned down before the analysis leaves the world
    as it was: a file part without a name is answered 400
    [No file selected], a named file that cannot be written 500
    [Failed to save file]; in both cases nothing is written and the model
    is not called, whatever the history field holds. *)
Theorem chat_upload_rejected
        (model : option (payload -> outcome str))
        (req : request) (f : upload) (w : world) :
  file req = Some f ->
  nonempty (filename f) = false \/ writable (path_of f) = false ->
  chat_with model req w =
  (if nonempty (filename f)
   then {| status := 500;
           body := [(lit "error", lit "Failed to save file")] |}
   else {| status := 400; body := [(lit "error", lit "No file selected")] |},
   w).
Proof.
  intros Hfile Hrej. unfold chat_with, chat, chat_body. rewrite Hfile.
  unfold handle_file_upload. rewrite Hfile.
  destruct (nonempty (filename f)) eqn:Hname; [| reflexivity].
  destruct Hrej as [Hrej | Hw]; [discriminate Hrej |].
  change (UPLOAD_FOLDER ++ lit "/" ++ token ++ lit "_" ++ filename f)
    with (path_of f).
  cbn [negb]. unfold bind, catch, save, ret. rewrite Hw. reflexivity.
Qed.
End Paths.

Lemma chat_json_answer_witness :
  file (json_request (PDict [(lit "message", PStr (lit "hello"))])) = None
  /\ json (json_request (PDict [(lit "message", PStr (lit "hello"))])) =
     Ok (PDict [(lit "message", PStr (lit "hello"))])
  /\ dict_get [(lit "message", PStr (lit "hello"))] (lit "message") =
     Some (PStr (lit "hello"))
  /\ nonempty (lit "hello") = true
  /\ build_conversation_context py_str_stub bad_type_stub
       (get [(lit "message", PStr (lit "hello"))]
            (lit "conversation_history") (PList [])) = Ok []
  /\ chat_stub (json_request (PDict [(lit "message", PStr (lit "hello"))]))
       empty_world =
     ({| status := 200; body := [(lit "response", lit "Hi there!")] |},
      {| disk := [];
         asked := [{| prompt := SYSTEM_INSTRUCTION ++ lit "hello" ++ [NL; NL]
                                ++ lit "Assistant:";
                      attachment := None |}] |}).
Proof.
  split; [reflexivity |]. split; [reflexivity |]. split; [reflexivity |].
  split; [reflexivity |]. split; [reflexivity |].
  unfold chat_stub.
  exact (@chat_json_answer
           ascii_decimal py_str_stub bad_type_stub json_loads_stub
           (lit "0123456789abcdef") (fun _ => true) decode_stub b64_stub
           model_stub
           (json_request (PDict [(lit "message", PStr (lit "hello"))]))
           [(lit "message", PStr (lit "hello"))] (lit "hello") [] empty_world
           eq_refl eq_refl eq_refl eq_refl eq_refl).
Defined.

Lemma chat_image_upload_witness :
  file (upload_request png_upload (lit "[]")) = Some png_upload
  /\ nonempty (filename png_upload) = true
  /\ build_conversation_context py_str_stub bad_type_stub
       match json_loads_stub
               (form_get (form (upload_request png_upload (lit "[]")))
                         (lit "conversation_history") (lit "[]")) with
       | Ok v => v
       | Raise _ => PList []
       end = Ok []
  /\ startswith (lit "image/") (mimetype png_upload) = true
  /\ snd (chat_stub (upload_request png_upload (lit "[]")) empty_world) =
     {| disk := [(lit "static/uploads/" ++ lit "0123456789abcdef" ++ lit "_"
                  ++ lit "photo.png", [])];
        asked := [{| prompt := SYSTEM_INSTRUCTION ++ [NL; NL]
                               ++ lit "What is this?";
                     attachment := Some (lit "image/png", lit "QUJD") |}] |}.
Proof.
  split; [reflexivity |]. split; [reflexivity |]. split; [reflexivity |].
  split; [reflexivity |].
  unfold chat_stub, model_stub.
  rewrite (@chat_image_upload
             ascii_decimal py_str_stub bad_type_stub json_loads_stub
             (lit "0123456789abcdef") (fun _ => true) decode_stub b64_stub
             (fun _ => Ok (lit "Hi there!"))
             (upload_request png_upload (lit "[]")) png_upload [] empty_world
             eq_refl eq_refl eq_refl eq_refl eq_refl).
  reflexivity.
Defined.

Lemma chat_text_upload_witness :
  file (upload_request csv_upload (lit "[]")) = Some csv_upload
  /\ nonempty (filename csv_upload) = true
  /\ startswith (lit "image/") (mimetype csv_upload) = false
  /\ startswith (lit "text/") (mimetype csv_upload)
     || endswith_any TEXT_EXTENSIONS (filename csv_upload) = true
  /\ decode_stub (data csv_upload) = Ok (lit "a,b")
  /\ snd (chat_stub (upload_request csv_upload (lit "[]")) empty_world) =
     {| disk := [(lit "static/uploads/" ++ lit "0123456789abcdef" ++ lit "_"
                  ++ lit "data.csv", [])];
        asked := [{| prompt := SYSTEM_INSTRUCTION ++ [NL; NL]
                               ++ lit "I've uploaded a file called 'data.csv'."
                               ++ lit " Could you analyze it?" ++ [NL; NL]
                               ++ lit "Here's the content:" ++ [NL; NL]
                               ++ lit "```" ++ [NL] ++ lit "a,b" ++ [NL]
                               ++ lit "```" ++ [NL; NL]
                               ++ lit "What is this?";
                     attachment := None |}] |}.
Proof.
  split; [reflexivity |]. split; [reflexivity |]. split; [reflexivity |].
  split; [reflexivity |]. split; [reflexivity |].
  unfold chat_stub, model_stub.
  rewrite (@chat_text_upload
             ascii_decimal py_str_stub bad_type_stub json_loads_stub
             (lit "0123456789abcdef") (fun _ => true) decode_stub b64_stub
             (fun _ => Ok (lit "Hi there!"))
             (upload_request csv_upload (lit "[]")) csv_upload []
             (lit "a,b") empty_world
             eq_refl eq_refl eq_refl eq_refl eq_refl eq_refl eq_refl).
  reflexivity.
Defined.

Lemma chat_text_upload_undecodable_witness :
  file (upload_request csv_upload (lit "[]")) = Some csv_upload
  /\ nonempty (filename csv_upload) = true
  /\ startswith (lit "image/") (mimetype csv_upload) = false
  /\ startswith (lit "text/") (mimetype csv_upload)
     || endswith_any TEXT_EXTENSIONS (filename csv_upload) = true
  /\ chat ascii_decimal py_str_stub bad_type_stub model_stub json_loads_stub
          (lit "0123456789abcdef") (fun _ => true)
          (fun _ => Raise (UnicodeDecodeError (lit "invalid start byte")))
          b64_stub (upload_request csv_upload (lit "[]")) empty_world =
     ({| status := 200;
         body := [(lit "response",
                   lit "Sorry, I couldn't read this file. "
                   ++ lit "It might be in a format I don't support.");
                  (lit "file_url",
                   lit "/static/uploads/" ++ lit "0123456789abcdef"
                   ++ lit "_" ++ lit "data.csv");
                  (lit "file_name", lit "data.csv");
                  (lit "file_type", lit "application/octet-stream")] |},
      {| disk := [(lit "static/uploads/" ++ lit "0123456789abcdef" ++ lit "_"
                   ++ lit "data.csv", [])];
         asked := [] |}).
Proof.
  split; [reflexivity |]. split; [reflexivity |]. split; [reflexivity |].
  split; [reflexivity |].
  exact (@chat_text_upload_undecodable
           ascii_decimal py_str_stub bad_type_stub json_loads_stub
           (lit "0123456789abcdef") (fun _ => true)
           (fun _ => Raise (UnicodeDecodeError (lit "invalid start byte")))
           b64_stub model_stub
           (upload_request csv_upload (lit "[]")) csv_upload []
           (lit "invalid start byte") empty_world
           eq_refl eq_refl eq_refl eq_refl eq_refl eq_refl eq_refl).
Defined.

Lemma chat_upload_bad_history_witness :
  file (upload_request png_upload (lit "7")) = Some png_upload
  /\ nonempty (filename png_upload) = true
  /\ build_conversation_context py_str_stub bad_type_stub (PInt 7) =
     Raise (Exception (lit "TypeError"))
  /\ chat ascii_decimal py_str_stub bad_type_stub model_stub
          (fun _ => Ok (PInt 7))
          (lit "0123456789abcdef") (fun _ => true) decode_stub b64_stub
          (upload_request png_upload (lit "7")) empty_world =
     ({| status := 500;
         body := [(lit "error",
                   lit "An error occurred: " ++ lit "TypeError")] |},
      {| disk := [(lit "static/uploads/" ++ lit "0123456789abcdef" ++ lit "_"
                   ++ lit "photo.png", [])];
         asked := [] |}).
Proof.
  split; [reflexivity |]. split; [reflexivity |]. split; [reflexivity |].
  exact (@chat_upload_bad_history
           ascii_decimal py_str_stub bad_type_stub (fun _ => Ok (PInt 7))
           (lit "0123456789abcdef") (fun _ => true) decode_stub b64_stub
           model_stub
           (upload_request png_upload (lit "7")) png_upload
           (Exception (lit "TypeError")) empty_world
           eq_refl eq_refl eq_refl eq_refl).
Defined.

Lemma chat_upload_rejected_witness :
  file (upload_request png_upload (lit "[]")) = Some png_upload
  /\ (nonempty (filename png_upload) = false \/ false = false)
  /\ chat ascii_decimal py_str_stub bad_type_stub model_stub json_loads_stub
          (lit "0123456789abcdef") (fun _ => false) decode_stub b64_stub
          (upload_request png_upload (lit "[]")) empty_world =
     ({| status := 500; body := [(lit "error", lit "Failed to save file")] |},
      empty_world).
Proof.
  split; [reflexivity |]. split; [right; reflexivity |].
  exact (@chat_upload_rejected
           ascii_decimal py_str_stub bad_type_stub json_loads_stub
           (lit "0123456789abcdef") (fun _ => false) decode_stub b64_stub
           model_stub
           (upload_request png_upload (lit "[]")) png_upload empty_world
           eq_refl (or_intror eq_refl)).
Defined.

(** ** Start-up *)

(** [initialize_model()] returns [True] exactly when the model could be
    built and its answer to the test prompt is a text that is not empty.
    The handle is assigned as soon as the model is built, before the test:
    it stays installed when the test fails.  The disk is not touched and
    the model is asked at most the test prompt. *)
Theorem initialize_model_result
        (make : outcome (payload -> outcome str))
        (old : option (payload -> outcome str)) (w : world) :
  let started := initialize_model make old w in
  (fst (fst started) = true <->
   exists generate text,
     make = Ok generate /\ generate HELLO = Ok text /\ text <> [])
  /\ snd (fst started) =
     match make with
     | Ok generate => Some generate
     | Raise _ => old
     end
  /\ disk (snd started) = disk w
  /\ asked (snd started) =
     asked w ++ match make with
                | Ok _ => [HELLO]
                | Raise _ => []
                end.
Proof.
  unfold initialize_model, generate_content.
  destruct make as [generate | e]; cbn.
  - destruct (generate HELLO) as [text | e] eqn:Htest; cbn.
    + split; [| auto]. split.
      * intros Hne. exists generate, text.
        split; [reflexivity |]. split; [exact Htest |].
        intros ->. discriminate Hne.
      * intros (g & text' & Hg & Hok & Hne).
        injection Hg as <-. rewrite Htest in Hok. injection Hok as <-.
        destruct text; [contradiction Hne; reflexivity | reflexivity].
    + split; [| auto]. split; [intros H; discriminate H |].
      intros (g & text' & Hg & Hok & _).
      injection Hg as <-. rewrite Htest in Hok. discriminate Hok.
  - rewrite app_nil_r. split; [| auto]. split; [intros H; discriminate H |].
    intros (g & text' & Hg & _). discriminate Hg.
Qed.

(** A start-up that reports failure because the test call raised or
    returned no text does not switch the model off: the next chat request
    is sent to that same model. *)
Theorem chat_after_failed_start_up
        (is_decimal : char -> bool) (py_str : pyval -> str)
        (bad_type : pyval -> exn) (json_loads : str -> outcome pyval)
        (token : str) (writable : str -> bool)
        (decode_utf8 : bytes -> outcome str) (b64encode : bytes -> str)
        (generate : payload -> outcome str)
        (old : option (payload -> outcome str))
        (req : request) (d : dict) (message context : str) (w : world) :
  generate HELLO = Ok [] \/ (exists e, generate HELLO = Raise e) ->
  file req = None ->
  json req = Ok (PDict d) ->
  dict_get d (lit "message") = Some (PStr message) ->
  nonempty message = true ->
  build_conversation_context py_str bad_type
    (get d (lit "conversation_history") (PList [])) = Ok context ->
  let started := initialize_model (Ok generate) old w in
  let sent :=
    {| prompt := SYSTEM_INSTRUCTION ++ context ++ message ++ [NL; NL]
                 ++ lit "Assistant:";
       attachment := None |} in
  fst (fst started) = false
  /\ asked (snd (chat is_decimal py_str bad_type (snd (fst started))
                      json_loads token writable decode_utf8 b64encode
                      req (snd started))) =
     asked w ++ [HELLO; sent].
Proof.
  intros Htest Hfile Hjson Hmsg Hne Hctx started sent.
  assert (Hstart : fst (fst started) = false
                   /\ snd (fst started) = Some generate
                   /\ asked (snd started) = asked w ++ [HELLO]).
  { unfold started, initialize_model, generate_content.
    destruct Htest as [E | [e E]]; rewrite E; cbn; auto. }
  destruct Hstart as (Hok & Hhandle & Hasked).
  split; [exact Hok |].
  rewrite Hhandle.
  unfold chat, chat_body. rewrite Hfile, Hjson.
  assert (Hd : truthy (PDict d) = true)
    by (destruct d; [discriminate Hmsg | reflexivity]).
  rewrite Hd. cbn [negb].
  rewrite (@get_found d _ PNone _ Hmsg), (@get_found d _ (PStr []) _ Hmsg).
  destruct message as [| c message]; [discriminate Hne |].
  cbn [truthy negb]. rewrite Hctx.
  unfold bind, generate_content, ret. fold sent.
  destruct (generate sent); cbn [snd asked]; rewrite Hasked, <- app_assoc;
    reflexivity.
Qed.

Lemma chat_after_failed_start_up_witness :
  (Raise (Exception (lit "quota exceeded")) = Ok (A := str) []
   \/ exists e, Raise (A := str) (Exception (lit "quota exceeded")) = Raise e)
  /\ dict_get [(lit "message", PStr (lit "hello"))] (lit "message") =
     Some (PStr (lit "hello"))
  /\ fst (fst (initialize_model
                 (Ok (fun _ : payload =>
                        Raise (A := str) (Exception (lit "quota exceeded"))))
                 None empty_world)) = false
  /\ asked
       (snd (chat ascii_decimal py_str_stub bad_type_stub
               (snd (fst (initialize_model
                            (Ok (fun _ : payload =>
                                   Raise (A := str)
                                         (Exception (lit "quota exceeded"))))
                            None empty_world)))
               json_loads_stub (lit "0123456789abcdef") (fun _ => true)
               decode_stub b64_stub
               (json_request (PDict [(lit "message", PStr (lit "hello"))]))
               (snd (initialize_model
                       (Ok (fun _ : payload =>
                              Raise (A := str)
                                    (Exception (lit "quota exceeded"))))
                       None empty_world)))) =
     asked empty_world
     ++ [HELLO;
         {| prompt := SYSTEM_INSTRUCTION ++ [] ++ lit "hello" ++ [NL; NL]
                      ++ lit "Assistant:";
            attachment := None |}].
Proof.
  assert (Htest : Raise (Exception (lit "quota exceeded")) = Ok (A := str) []
                  \/ exists e, Raise (A := str)
                                     (Exception (lit "quota exceeded")) =
                               Raise e)
    by (right; eexists; reflexivity).
  split; [exact Htest |]. split; [reflexivity |].
  exact (@chat_after_failed_start_up
           ascii_decimal py_str_stub bad_type_stub json_loads_stub
           (lit "0123456789abcdef") (fun _ => true) decode_stub b64_stub
           (fun _ => Raise (Exception (lit "quota exceeded"))) None
           (json_request (PDict [(lit "message", PStr (lit "hello"))]))
           [(lit "message", PStr (lit "hello"))] (lit "hello") [] empty_world
           Htest eq_refl eq_refl eq_refl eq_refl eq_refl).
Defined.
